(** * Aira: the generation service (src/services/geminiService.ts)

  A shallow embedding of the service module of the Aira chat client and the
  properties its specification states about it.  The embedding follows the
  TypeScript source function by function; the browser and the remote
  generation backend are taken as parameters (Section variables) or as
  scripted inputs (lists of responses, lists of transport events).

  Conventions.
  - A byte is a [Z] in [0, 256); typed-array stores write the value
    modulo the element width, as the platform does.
  - A binary string (the result of [atob]) is a [string]: every character is
    one byte, and [charCodeAt] is [Js.charCodeAt].
  - An exception thrown by the platform is a value of [Exn]; a function that
    may throw returns a sum. *)

From Stdlib Require Import ZArith QArith Qabs List String Ascii Bool Arith Lia.
Import ListNotations.

Set Implicit Arguments.

(* ================================================================== *)
(** * Part I: definitions *)
(* ================================================================== *)

(** ** JavaScript primitives used by the service *)

Module Js.

Definition charCodeAt (c : ascii) : Z := Z.of_N (N_of_ascii c).

(** The characters of a string, as the [for (i = 0; i < s.length; i++)]
    loops of the source visit them. *)
Definition chars (s : string) : list ascii := list_ascii_of_string s.

(** A string used as a condition: the empty string is falsy. *)
Definition truthy (s : string) : bool :=
  match s with EmptyString => false | String _ _ => true end.

(** [v || d] where [v] is a possibly undefined string. *)
Definition or_else (v : option string) (d : string) : string :=
  match v with
  | Some s => if truthy s then s else d
  | None => d
  end.

(** [String.prototype.toLowerCase].  Messages are byte strings (UTF-8); only
    the ASCII capitals are mapped.  The needles the service searches for
    ("429", "exhausted", "safety") contain no letter that a non-ASCII
    character lowers to, so the classification is the one the platform
    computes. *)
Definition lower_char (c : ascii) : ascii :=
  let n := N_of_ascii c in
  if ((65 <=? n) && (n <=? 90))%N then ascii_of_N (n + 32) else c.

Fixpoint toLowerCase (s : string) : string :=
  match s with
  | EmptyString => EmptyString
  | String c s' => String (lower_char c) (toLowerCase s')
  end.

(** [s.startsWith(p)]. *)
Definition startsWith (s p : string) : bool := String.prefix p s.

(** [s.includes(needle)]. *)
Fixpoint includes (s needle : string) : bool :=
  if String.prefix needle s then true
  else match s with
       | EmptyString => false
       | String _ s' => includes s' needle
       end.

(** Exceptions of the platform that the modelled code can meet. *)
Inductive Exn : Type :=
| InvalidCharacterError   (* atob on malformed input *)
| RangeError              (* typed-array view over a misaligned buffer,
                             DataView access out of bounds *)
| NotSupportedError       (* createBuffer with zero frames *)
| TypeError.              (* a property read on null or undefined, a call
                             of something that is not a function *)

(** A value of type [any], as a [catch] clause binds it: anything can be
    thrown.  An object is the list of its data properties; accessors and
    function-valued properties are outside the model. *)
#[warnings="-register-all"] Inductive Value : Type :=
| VUndefined
| VNull
| VBoolean (b : bool)
| VNumber (x : Q)
| VString (s : string)
| VObject (properties : list (string * Value)).

End Js.

(** ** Byte buffers, typed arrays and DataView *)

Module Buffer.
Local Open Scope Z_scope.

Definition ArrayBuffer := list Z.

(** [new ArrayBuffer(n)]: [n] zero bytes. *)
Definition alloc (n : nat) : ArrayBuffer := repeat 0 n.

(** The [n] low bytes of [v], least significant first (two's complement for
    a negative [v]); what [setUintN(_, v, true)] stores. *)
Fixpoint le_bytes (n : nat) (v : Z) : list Z :=
  match n with
  | O => []
  | S n' => v mod 256 :: le_bytes n' (v / 256)
  end.

(** The unsigned value of a little-endian byte sequence. *)
Fixpoint le_value (bs : list Z) : Z :=
  match bs with
  | [] => 0
  | b :: bs' => b + 256 * le_value bs'
  end.

(** Overwrite a prefix of [buf] with [bs]; fails when [bs] is longer. *)
Fixpoint overwrite (bs : list Z) (buf : ArrayBuffer) : option ArrayBuffer :=
  match bs, buf with
  | [], _ => Some buf
  | v :: bs', _ :: buf' => option_map (cons v) (overwrite bs' buf')
  | _ :: _, [] => None
  end.

(** Store [bs] at byte offset [off]; [None] is the platform's RangeError. *)
Fixpoint store (off : nat) (bs : list Z) (buf : ArrayBuffer) : option ArrayBuffer :=
  match off with
  | O => overwrite bs buf
  | S off' =>
      match buf with
      | [] => None
      | b :: buf' => option_map (cons b) (store off' bs buf')
      end
  end.

(** A sequence of DataView writes: each either updates the buffer or
    throws, and a throw aborts the rest. *)
Definition ViewOp := ArrayBuffer -> option ArrayBuffer.

Definition and_then (a b : ViewOp) : ViewOp :=
  fun buf => match a buf with Some buf' => b buf' | None => None end.

Definition skip : ViewOp := fun buf => Some buf.

Definition endian (littleEndian : bool) (bs : list Z) : list Z :=
  if littleEndian then bs else rev bs.

Definition setUint8 (off : nat) (v : Z) : ViewOp := store off (le_bytes 1 v).
Definition setUint16 (off : nat) (v : Z) (littleEndian : bool) : ViewOp :=
  store off (endian littleEndian (le_bytes 2 v)).
Definition setUint32 (off : nat) (v : Z) (littleEndian : bool) : ViewOp :=
  store off (endian littleEndian (le_bytes 4 v)).

(** Reading back, little-endian: [getUintN(off, true)] on a byte sequence. *)
Definition getUint (n off : nat) (bs : list Z) : Z :=
  le_value (firstn n (skipn off bs)).
Definition getUint16 := getUint 2.
Definition getUint32 := getUint 4.

(** [new Uint8Array(len)] filled by [bytes[i] = s.charCodeAt(i)]. *)
Definition bytes_of_binary_string (s : string) : ArrayBuffer :=
  map (fun c => Js.charCodeAt c mod 256) (Js.chars s).

(** [new Int16Array(buffer)]: a view over the whole buffer, which must hold
    a whole number of 2-byte elements. *)
Record Int16Array : Type := { view_buffer : ArrayBuffer }.

Definition newInt16Array (buffer : ArrayBuffer) : Js.Exn + Int16Array :=
  if Nat.even (List.length buffer) then inr {| view_buffer := buffer |}
  else inl Js.RangeError.

Definition byteLength (a : Int16Array) : Z :=
  Z.of_nat (List.length (view_buffer a)).

(** Number of elements. *)
Definition length16 (a : Int16Array) : nat :=
  Nat.div2 (List.length (view_buffer a)).

(** A 16-bit pattern read as a signed integer. *)
Definition signed16 (u : Z) : Z := if u <? 32768 then u else u - 65536.

(** The elements of the view (little-endian platforms). *)
Fixpoint elements16 (bs : list Z) : list Z :=
  match bs with
  | lo :: hi :: bs' => signed16 (lo + 256 * hi) :: elements16 bs'
  | _ => []
  end.

(** [ToInt16]: the conversion applied by a store into an Int16Array to a
    number that is already an integer. *)
Definition toInt16 (z : Z) : Z := (z + 32768) mod 65536 - 32768.

End Buffer.

Declare Scope write_scope.
Delimit Scope write_scope with write.
Notation "a ;; b" := (Buffer.and_then a b)
(at level 61, right associativity) : write_scope.

(** ** The WAV writer (lines 165-208) *)

Module Wav.
Import Buffer.
Local Open Scope Z_scope.

Record Blob : Type := { blob_bytes : list Z; blob_type : string }.

(** [writeString(view, offset, string)], lines 204-208. *)
Fixpoint writeString_from (offset : nat) (cs : list ascii) : ViewOp :=
  match cs with
  | [] => skip
  | c :: cs' =>
      (setUint8 offset (Js.charCodeAt c) ;; writeString_from (S offset) cs')%write
  end.

Definition writeString (offset : nat) (s : string) : ViewOp :=
  writeString_from offset (Js.chars s).

Section WithPlatform.
(** The browser's base64 decoder; [None] is InvalidCharacterError. *)
Variable atob : string -> option string.

(** [base64PCMToWav], lines 168-202.  The result is the Blob handed to
    [URL.createObjectURL]; the object URL itself is an opaque handle to
    exactly these bytes. *)
Definition base64PCMToWav (base64Pcm : string) (sampleRate : Z)
  : Js.Exn + Blob :=
  match atob base64Pcm with
  | None => inl Js.InvalidCharacterError
  | Some binaryString =>
      let bytes := bytes_of_binary_string binaryString in
      match newInt16Array bytes with
      | inl e => inl e
      | inr pcmData =>
          let numChannels := 1 in
          let byteRate := sampleRate * numChannels * 2 in
          let blockAlign := numChannels * 2 in
          let wavHeader := alloc 44 in
          let writes :=
            (writeString 0 "RIFF" ;;
             setUint32 4 (36 + byteLength pcmData) true ;;
             writeString 8 "WAVE" ;;
             writeString 12 "fmt " ;;
             setUint32 16 16 true ;;
             setUint16 20 1 true ;;
             setUint16 22 numChannels true ;;
             setUint32 24 sampleRate true ;;
             setUint32 28 byteRate true ;;
             setUint16 32 blockAlign true ;;
             setUint16 34 16 true ;;
             writeString 36 "data" ;;
             setUint32 40 (byteLength pcmData) true)%write in
          match writes wavHeader with
          | None => inl Js.RangeError
          | Some view =>
              inr {| blob_bytes := view ++ view_buffer pcmData;
                     blob_type := "audio/wav" |}
          end
      end
  end.
End WithPlatform.

(** What the specification says of the container, field by field: a 44-byte
    header, then the payload; the header's fields read little-endian. *)
Definition header (blob : list Z) : list Z := firstn 44 blob.
Definition body (blob : list Z) : list Z := skipn 44 blob.

Definition canonical_container (payload : list Z) (sampleRate : Z)
    (blob : list Z) : Prop :=
  List.length (header blob) = 44%nat /\
  body blob = payload /\
  getUint32 4 blob = 36 + Z.of_nat (List.length payload) /\
  getUint16 20 blob = 1 /\
  getUint16 22 blob = 1 /\
  getUint32 24 blob = sampleRate /\
  getUint32 28 blob = sampleRate * 2 /\
  getUint16 32 blob = 2 /\
  getUint16 34 blob = 16 /\
  getUint32 40 blob = Z.of_nat (List.length payload).

(** The four tags and the size of the format chunk, which make the layout
    the minimal RIFF/WAVE one. *)
Definition riff_tags (blob : list Z) : Prop :=
  firstn 4 blob = [82; 73; 70; 70] /\
  firstn 4 (skipn 8 blob) = [87; 65; 86; 69] /\
  firstn 4 (skipn 12 blob) = [102; 109; 116; 32] /\
  getUint32 16 blob = 16 /\
  firstn 4 (skipn 36 blob) = [100; 97; 116; 97].

(** The header the writer builds, as a byte sequence. *)
Definition wav_header (payloadLength sampleRate : Z) : list Z :=
  [82; 73; 70; 70] ++ le_bytes 4 (36 + payloadLength) ++ [87; 65; 86; 69]
  ++ [102; 109; 116; 32] ++ [16; 0; 0; 0] ++ [1; 0] ++ [1; 0]
  ++ le_bytes 4 sampleRate ++ le_bytes 4 (sampleRate * 1 * 2) ++ [2; 0] ++ [16; 0]
  ++ [100; 97; 116; 97] ++ le_bytes 4 payloadLength.

End Wav.

(** ** A reference decoder for base64 (the platform's [atob])

  The service is parameterised by the decoder; this executable model of the
  forgiving-base64 decoding lets it run on concrete inputs. *)

Module Base64.
Local Open Scope Z_scope.

Definition sextet (c : ascii) : option Z :=
  let n := Js.charCodeAt c in
  if (65 <=? n) && (n <=? 90) then Some (n - 65)
  else if (97 <=? n) && (n <=? 122) then Some (n - 71)
  else if (48 <=? n) && (n <=? 57) then Some (n + 4)
  else if n =? 43 then Some 62
  else if n =? 47 then Some 63
  else None.

Definition is_space (c : ascii) : bool :=
  let n := Js.charCodeAt c in
  (n =? 9) || (n =? 10) || (n =? 12) || (n =? 13) || (n =? 32).

Fixpoint sextets (cs : list ascii) : option (list Z) :=
  match cs with
  | [] => Some []
  | c :: cs' =>
      match sextet c, sextets cs' with
      | Some v, Some vs => Some (v :: vs)
      | _, _ => None
      end
  end.

Fixpoint octets (vs : list Z) : option (list Z) :=
  match vs with
  | [] => Some []
  | [_] => None
  | [a; b] => Some [a * 4 + b / 16]
  | [a; b; c] => Some [a * 4 + b / 16; (b mod 16) * 16 + c / 4]
  | a :: b :: c :: d :: vs' =>
      option_map
        (fun rest => a * 4 + b / 16 :: (b mod 16) * 16 + c / 4
                     :: (c mod 4) * 64 + d :: rest)
        (octets vs')
  end.

Definition strip_padding (cs : list ascii) : list ascii :=
  if (List.length cs mod 4 =? 0)%nat then
    match rev cs with
    | "="%char :: "="%char :: r => rev r
    | "="%char :: r => rev r
    | _ => cs
    end
  else cs.

Definition atob (s : string) : option string :=
  let cs := strip_padding (filter (fun c => negb (is_space c)) (Js.chars s)) in
  match sextets cs with
  | None => None
  | Some vs =>
      option_map
        (fun bs => string_of_list_ascii (map (fun b => ascii_of_N (Z.to_N b)) bs))
        (octets vs)
  end.

End Base64.

(** ** The data model (src/types.ts) *)

Module Types.

Record Attachment : Type := {
  mimeType : string;
  data : string;            (* base64 *)
  name : option string
}.

Inductive AppMode : Type :=
| chat | thinking | maps | image | video | fast | tts | live.

Record GenerationConfig : Type := {
  aspectRatio : option string;
  imageSize : option string;
  resolution : option string
}.

Inductive Role : Type := user | model.

Record Message : Type := {
  id : string;
  role : Role;
  content : string;
  timestamp : Z;
  isStreaming : option bool;
  isError : option bool;
  attachments : option (list Attachment);
  generatedImage : option string;
  generatedVideo : option string;
  audioData : option string
}.

End Types.

(** ** What the service exchanges with the generation backend (@google/genai) *)

Module Genai.

Inductive Part : Type :=
| TextPart (text : string)
| InlineData (mimeType data : string).

Record Content : Type := { role : Types.Role; parts : list Part }.

Record ThinkingConfig : Type := { thinkingBudget : Z }.

Inductive Tool : Type := googleMaps.

Record ChatConfig : Type := {
  systemInstruction : string;
  thinkingConfig : option ThinkingConfig;
  tools : option (list Tool)
}.

(** [ai.chats.create({model, history, config})] followed by
    [chat.sendMessageStream({message})]: everything the backend receives. *)
Record ChatRequest : Type := {
  model : string;
  history : list Content;
  config : ChatConfig;
  message : list Part
}.

(** One element of the response stream; [text] may be undefined. *)
Record Chunk : Type := { text : option string }.

End Genai.

(** ** Errors: raw failures and [mapError] (lines 406-411) *)

Module Errors.
Local Open Scope string_scope.

(** An error object caught by a [catch], as the SDK and the service's own
    [throw] statements produce them: the service only ever looks at its
    [message] property, which may be missing.  The other values a [catch]
    can bind are covered by [Untyped] below. *)
Record RawError : Type := { message : option string }.

(** [new Error(msg)]. *)
Definition Error (msg : string) : RawError := {| message := Some msg |}.

Definition mapError (error : RawError) : RawError :=
  let msg := Js.or_else (option_map Js.toLowerCase (message error)) "" in
  if Js.includes msg "429" || Js.includes msg "exhausted"
  then Error "Rate limit exceeded. Try again later."
  else if Js.includes msg "safety"
  then Error "Content blocked by safety settings."
  else Error (Js.or_else (message error) "An unexpected error occurred.").

(** What a caller of an async function of the service observes. *)
Inductive Outcome (A : Type) : Type :=
| Returned (value : A)
| Thrown (error : RawError).
Arguments Returned {A} value.
Arguments Thrown {A} error.

(** The words of the specification: [needle] occurs in [s] when case is
    ignored, that is, some substring of [s] lowers to [needle]. *)
Definition mentions (needle s : string) : Prop :=
  exists pre mid post, s = pre ++ mid ++ post /\ Js.toLowerCase mid = needle.

Definition message_mentions (needle : string) (error : RawError) : Prop :=
  exists m, message error = Some m /\ mentions needle m.

Definition rate_exhaustion (error : RawError) : Prop :=
  message_mentions "429" error \/ message_mentions "exhausted" error.

Definition safety_rejection (error : RawError) : Prop :=
  message_mentions "safety" error.

(** [mapError] as the source declares it, [(error: any)]: on every value a
    [catch] clause can bind.  [Errors.mapError] above is its restriction to
    the objects whose [message] is a string or is missing (see
    [mapError_restriction]). *)
Module Untyped.

(** [error.message]: reading a property of null or undefined throws; no
    primitive has a [message]; an object yields the property or undefined. *)
Definition messageProperty (error : Js.Value) : Js.Exn + Js.Value :=
  match error with
  | Js.VUndefined | Js.VNull => inl Js.TypeError
  | Js.VObject properties =>
      match find (fun p => String.eqb (fst p) "message") properties with
      | Some (_, m) => inr m
      | None => inr Js.VUndefined
      end
  | _ => inr Js.VUndefined
  end.

(** [m?.toLowerCase()]: undefined when [m] is null or undefined; the lowered
    string when [m] is a string; otherwise [m.toLowerCase] is undefined and
    the call throws. *)
Definition toLowerCaseIfPresent (m : Js.Value) : Js.Exn + option string :=
  match m with
  | Js.VUndefined | Js.VNull => inr None
  | Js.VString s => inr (Some (Js.toLowerCase s))
  | _ => inl Js.TypeError
  end.

(** The string a value is, if it is one. *)
Definition stringOf (m : Js.Value) : option string :=
  match m with
  | Js.VString s => Some s
  | _ => None
  end.

(** Lines 406-411.  When the last line is reached, [error.message] is a
    string, null or undefined, the first line having thrown otherwise. *)
Definition mapError (error : Js.Value) : Js.Exn + RawError :=
  match messageProperty error with
  | inl e => inl e
  | inr m =>
      match toLowerCaseIfPresent m with
      | inl e => inl e
      | inr lowered =>
          let msg := Js.or_else lowered "" in
          if Js.includes msg "429" || Js.includes msg "exhausted"
          then inr (Error "Rate limit exceeded. Try again later.")
          else if Js.includes msg "safety"
          then inr (Error "Content blocked by safety settings.")
          else inr (Error (Js.or_else (stringOf m) "An unexpected error occurred."))
      end
  end.

(** An error object as the typed model has it, as a value. *)
Definition ofRaw (error : RawError) : Js.Value :=
  Js.VObject match message error with
             | Some m => [("message", Js.VString m)]
             | None => []
             end.

(** The words of the specification.  The message text of a raw error value,
    when it has one. *)
Definition messageText (error : Js.Value) : option string :=
  match messageProperty error with
  | inr (Js.VString m) => Some m
  | _ => None
  end.

Definition mentions_in (needle : string) (error : Js.Value) : Prop :=
  exists m, messageText error = Some m /\ mentions needle m.

Definition rate_exhaustion (error : Js.Value) : Prop :=
  mentions_in "429" error \/ mentions_in "exhausted" error.

Definition safety_rejection (error : Js.Value) : Prop :=
  mentions_in "safety" error.


End Untyped.

End Errors.

(** ** The streaming chat pathway (lines 12-133) *)

Module Chat.
Import Types.
Local Open Scope string_scope.

Definition CHAT_MODEL := "gemini-3-pro-preview".
Definition THINKING_MODEL := "gemini-3-pro-preview".
Definition MAPS_MODEL := "gemini-2.5-flash".
Definition FAST_MODEL := "gemini-2.5-flash-lite".
Definition AUDIO_MODEL := "gemini-2.5-flash".

(** An optional boolean used as a condition ([undefined] is falsy). *)
Definition flag (b : option bool) : bool :=
  match b with Some true => true | _ => false end.

(** [msg.attachments && msg.attachments.length > 0]. *)
Definition hasAttachments (msg : Message) : bool :=
  match attachments msg with
  | Some (_ :: _) => true
  | _ => false
  end.

Definition inlinePart (att : Attachment) : Genai.Part :=
  Genai.InlineData (mimeType att) (data att).

(** The body of the [map] callback, lines 31-51. *)
Definition toContent (msg : Message) : Genai.Content :=
  let parts :=
    ((if Js.truthy (content msg) then [Genai.TextPart (content msg)] else [])
     ++ match attachments msg with
        | Some atts => map inlinePart atts
        | None => []
        end)%list in
  {| Genai.role := role msg; Genai.parts := parts |}.

(** [mapMessagesToHistory], lines 27-52. *)
Definition mapMessagesToHistory (messages : list Message) : list Genai.Content :=
  map toContent
    (filter (fun msg => Js.truthy (content msg) || hasAttachments msg)
       (filter (fun msg => negb (flag (isError msg))) messages)).

Definition baseConfig : Genai.ChatConfig :=
  {| Genai.systemInstruction :=
       "You are Aira, a sophisticated AI assistant. Use Markdown.";
     Genai.thinkingConfig := None;
     Genai.tools := None |}.

(** "Determine Model and Config based on Mode", lines 68-93. *)
Definition determineModelAndConfig (mode : AppMode) (attachments : list Attachment)
  : string * Genai.ChatConfig :=
  match mode with
  | thinking =>
      (THINKING_MODEL,
       {| Genai.systemInstruction := Genai.systemInstruction baseConfig;
          Genai.thinkingConfig := Some {| Genai.thinkingBudget := 32768 |};
          Genai.tools := None |})
  | fast => (FAST_MODEL, baseConfig)
  | maps =>
      (MAPS_MODEL,
       {| Genai.systemInstruction := Genai.systemInstruction baseConfig;
          Genai.thinkingConfig := None;
          Genai.tools := Some [Genai.googleMaps] |})
  | _ =>
      if (0 <? List.length attachments)%nat then
        let hasAudio :=
          existsb (fun a => Js.startsWith (mimeType a) "audio/") attachments in
        if hasAudio then (AUDIO_MODEL, baseConfig) else (CHAT_MODEL, baseConfig)
      else (CHAT_MODEL, baseConfig)
  end.

(** Lines 66-114: the request the backend receives. *)
Definition chatRequest (history : list Message) (newMessage : string)
    (attachments : list Attachment) (mode : AppMode) : Genai.ChatRequest :=
  let formattedHistory := mapMessagesToHistory history in
  let (model, config) := determineModelAndConfig mode attachments in
  let currentParts :=
    ((if Js.truthy newMessage then [Genai.TextPart newMessage] else [])
     ++ map inlinePart attachments)%list in
  {| Genai.model := model;
     Genai.history := formattedHistory;
     Genai.config := config;
     Genai.message := currentParts |}.

(** How a response stream ends, and what the streaming call yields:
    [sendMessageStream] either rejects or hands back a stream that delivers
    chunks and then is exhausted or fails. *)
Inductive StreamEnd : Type :=
| Exhausted
| Failed (error : Errors.RawError).

Inductive StreamCall : Type :=
| Rejected (error : Errors.RawError)
| Streaming (chunks : list Genai.Chunk) (ending : StreamEnd).

(** An [AbortSignal] as the consumer observes it: [signal k] is the value of
    [signal.aborted] read once [k] chunks have been taken from the stream
    (the check at the top of the loop body for chunk [k+1], or the check in
    the [catch] if the stream fails instead of delivering chunk [k+1]). *)
Definition AbortSignal := nat -> bool.

(** [signal?.aborted]. *)
Definition aborted (signal : option AbortSignal) (k : nat) : bool :=
  match signal with
  | Some s => s k
  | None => false
  end.

(** How the [try] block ends. *)
Inductive TryEnd : Type :=
| Completed (fullText : string)
| Raised (taken : nat) (error : Errors.RawError).

(** The [for await] loop, lines 118-125; [k] chunks were taken before.  The
    first component lists the arguments [onChunk] was called with, in order. *)
Fixpoint forAwait (signal : option AbortSignal) (k : nat)
    (chunks : list Genai.Chunk) (ending : StreamEnd) (fullText : string)
  : list string * TryEnd :=
  match chunks with
  | [] =>
      match ending with
      | Exhausted => ([], Completed fullText)
      | Failed error => ([], Raised k error)
      end
  | chunk :: rest =>
      if aborted signal k then ([], Completed fullText)
      else
        match Genai.text chunk with
        | Some text =>
            if Js.truthy text then
              let (calls, r) := forAwait signal (S k) rest ending (fullText ++ text) in
              (text :: calls, r)
            else forAwait signal (S k) rest ending fullText
        | None => forAwait signal (S k) rest ending fullText
        end
  end.

Section WithBackend.
(** The backend's answer to a streaming chat request. *)
Variable ai : Genai.ChatRequest -> StreamCall.

(** [streamResponse], lines 57-133: the calls made to [onChunk] and the
    outcome of the returned promise. *)
Definition streamResponse (history : list Message) (newMessage : string)
    (attachments : list Attachment) (mode : AppMode)
    (signal : option AbortSignal)
  : list string * Errors.Outcome string :=
  let (calls, r) :=
    match ai (chatRequest history newMessage attachments mode) with
    | Rejected error => ([], Raised 0 error)
    | Streaming chunks ending => forAwait signal 0 chunks ending ""
    end in
  match r with
  | Completed fullText => (calls, Errors.Returned fullText)
  | Raised k error =>
      if aborted signal k then (calls, Errors.Returned "")
      else (calls, Errors.Thrown (Errors.mapError error))
  end.
End WithBackend.

(** *** The words of the specification *)

(** A message the history must not carry. *)
Definition excluded (msg : Message) : Prop :=
  isError msg = Some true \/
  (content msg = "" /\ (attachments msg = None \/ attachments msg = Some [])).

(** [kept] is [messages] without the excluded ones, in the same order. *)
Inductive Kept : list Message -> list Message -> Prop :=
| Kept_nil : Kept [] []
| Kept_drop msg messages kept :
    excluded msg -> Kept messages kept -> Kept (msg :: messages) kept
| Kept_keep msg messages kept :
    ~ excluded msg -> Kept messages kept -> Kept (msg :: messages) (msg :: kept).

(** Reading a transmitted turn back: its text and its inline attachments. *)
Definition textOf (c : Genai.Content) : string :=
  concat "" (flat_map (fun p => match p with
                                | Genai.TextPart t => [t]
                                | Genai.InlineData _ _ => []
                                end) (Genai.parts c)).

Definition inlineOf (c : Genai.Content) : list (string * string) :=
  flat_map (fun p => match p with
                     | Genai.TextPart _ => []
                     | Genai.InlineData m d => [(m, d)]
                     end) (Genai.parts c).

Definition attachmentsOf (msg : Message) : list (string * string) :=
  match attachments msg with
  | Some atts => map (fun a => (mimeType a, data a)) atts
  | None => []
  end.

(** The texts of the chunks, [undefined] counting as no text. *)
Definition chunkText (c : Genai.Chunk) : string :=
  match Genai.text c with Some t => t | None => "" end.

Definition hasAudio (attachments : list Attachment) : Prop :=
  exists a, In a attachments /\ exists rest, mimeType a = "audio/" ++ rest.

(** The cancellation signal becomes aborted once [n] chunks have been
    delivered: the first [n] checks of the loop see it clear, the next
    observation sees it set. *)
Definition abortedAfter (n : nat) (signal : AbortSignal) : Prop :=
  (forall k, (k < n)%nat -> signal k = false) /\ signal n = true.

(** The stream call raises [error] when [k] chunks have been taken: the call
    itself rejects, or the stream fails after its chunks, none of which met
    an aborted signal. *)
Definition raises (call : StreamCall) (signal : option AbortSignal)
    (k : nat) (error : Errors.RawError) : Prop :=
  (call = Rejected error /\ k = 0%nat) \/
  (exists chunks,
      call = Streaming chunks (Failed error) /\ k = List.length chunks /\
      forall j, (j < k)%nat -> aborted signal j = false).

End Chat.

(** ** Sample conversion (lines 269-274 and 308-315)

    Samples are rationals.  A capture sample is a Float32 (a dyadic rational
    with a 24-bit significand); its product with 0x7FFF has at most 39
    significant bits and is exact in the platform's double arithmetic; the
    division of a 16-bit integer by 32768.0 is exact as well, and the quotient
    fits a Float32.  The conversions below are therefore the ones the
    platform computes, with no rounding other than the truncation of the
    Int16Array store. *)

Module Pcm.

(** The integer part, towards zero (the first step of [ToInt16]). *)
Definition trunc (q : Q) : Z := Z.quot (Qnum q) (Zpos (Qden q)).

(** [pcm16[i] = inputData[i] * 0x7FFF]. *)
Definition floatToInt16 (sample : Q) : Z :=
  Buffer.toInt16 (trunc (sample * inject_Z 32767)).

(** [channelData[i] = int16[i] / 32768.0]. *)
Definition int16ToFloat (v : Z) : Q := inject_Z v / inject_Z 32768.

(** One capture frame, lines 271-274. *)
Definition pcm16 (inputData : list Q) : list Z := map floatToInt16 inputData.

(** One playback buffer, lines 313-315. *)
Definition channelData (int16 : Buffer.Int16Array) : list Q :=
  map int16ToFloat (Buffer.elements16 (Buffer.view_buffer int16)).

(** A normalized sample. *)
Definition normalized (x : Q) : Prop := (- (1) <= x <= 1)%Q.

(** Capture followed by playback of one sample. *)
Definition roundTrip (x : Q) : Q := int16ToFloat (floatToInt16 x).

End Pcm.

(** ** Video generation: submit, then poll (lines 375-394) *)

Module Video.
Import Types.
Local Open Scope string_scope.

Definition VIDEO_GEN_MODEL := "veo-3.1-fast-generate-preview".

Record VideoFile : Type := { uri : option string }.
Record GeneratedVideo : Type := { video : option VideoFile }.
Record GenerateVideosResponse : Type := {
  generatedVideos : option (list GeneratedVideo)
}.

(** The state of the long-running operation, as the backend reports it. *)
Record Operation : Type := {
  done : option bool;
  response : option GenerateVideosResponse
}.

Record VideoConfig : Type := {
  numberOfVideos : Z;
  resolution : string;
  aspectRatio : string
}.

Record Image : Type := { imageBytes : string; imageMimeType : string }.

Record VideoPayload : Type := {
  model : string;
  prompt : string;
  config : VideoConfig;
  image : option Image
}.

(** What the function does to the outside world, in order. *)
Inductive Effect : Type :=
| GenerateVideos (payload : VideoPayload)
| Wait (milliseconds : Z)
| GetVideosOperation (operation : Operation).

(** How the polling loop ends: with a finished operation, with a rejected
    re-query, or still waiting when the scripted responses run out. *)
Inductive LoopEnd : Type :=
| Finished (operation : Operation)
| Broken (error : Errors.RawError)
| Waiting.

(** The [while (!operation.done)] loop, lines 386-389, against the answers
    the backend gives to the successive re-queries. *)
Fixpoint pollLoop (operation : Operation)
    (answers : list (Errors.RawError + Operation)) : list Effect * LoopEnd :=
  if Chat.flag (done operation) then ([], Finished operation)
  else
    match answers with
    | [] => ([Wait 5000; GetVideosOperation operation], Waiting)
    | inl error :: _ => ([Wait 5000; GetVideosOperation operation], Broken error)
    | inr operation' :: answers' =>
        let (effects, r) := pollLoop operation' answers' in
        (Wait 5000 :: GetVideosOperation operation :: effects, r)
    end.

(** [operation.response?.generatedVideos?.[0]?.video?.uri]. *)
Definition firstVideoUri (operation : Operation) : option string :=
  match response operation with
  | Some r =>
      match generatedVideos r with
      | Some (v :: _) =>
          match video v with
          | Some f => uri f
          | None => None
          end
      | _ => None
      end
  | None => None
  end.

Definition videoPayload (prompt : string) (config : GenerationConfig)
    (attachment : option Attachment) : VideoPayload :=
  {| model := VIDEO_GEN_MODEL;
     prompt := prompt;
     config := {| numberOfVideos := 1;
                  resolution := "720p";
                  aspectRatio := Js.or_else (Types.aspectRatio config) "16:9" |};
     image := option_map
                (fun a => {| imageBytes := data a; imageMimeType := mimeType a |})
                attachment |}.

Section WithBackend.
Variable API_KEY : string.
(** The answer to the submission, and the answers to the re-queries. *)
Variable generateVideos : VideoPayload -> Errors.RawError + Operation.
Variable answers : list (Errors.RawError + Operation).

(** [generateVideo]: its effects, and the outcome of the promise ([None]
    while it is still pending). *)
Definition generateVideo (prompt : string) (config : GenerationConfig)
    (attachment : option Attachment)
  : list Effect * option (Errors.Outcome string) :=
  let payload := videoPayload prompt config attachment in
  match generateVideos payload with
  | inl error => ([GenerateVideos payload], Some (Errors.Thrown (Errors.mapError error)))
  | inr operation =>
      let (effects, r) := pollLoop operation answers in
      (GenerateVideos payload :: effects,
       match r with
       | Waiting => None
       | Broken error => Some (Errors.Thrown (Errors.mapError error))
       | Finished operation =>
           match firstVideoUri operation with
           | Some videoUri =>
               if Js.truthy videoUri
               then Some (Errors.Returned (videoUri ++ "&key=" ++ API_KEY))
               else Some (Errors.Thrown
                            (Errors.mapError (Errors.Error "Video generation failed.")))
           | None =>
               Some (Errors.Thrown
                       (Errors.mapError (Errors.Error "Video generation failed.")))
           end
       end)
  end.
End WithBackend.

(** The re-queries among the effects, and the waits. *)
Definition requeries (effects : list Effect) : list Operation :=
  flat_map (fun e => match e with GetVideosOperation o => [o] | _ => [] end) effects.

Definition waits (effects : list Effect) : list Z :=
  flat_map (fun e => match e with Wait ms => [ms] | _ => [] end) effects.

Definition pending (operation : Operation) : Prop :=
  Chat.flag (done operation) = false.

End Video.

(** ** The real-time voice session (lines 214-338) *)

Module Live.
Local Open Scope string_scope.

Inductive Status : Type := connected | disconnected | error.

Section Clock.
(** The seconds of the playback clock ([AudioContext.currentTime],
    [AudioBuffer.duration]): a type with the platform's comparison and
    addition, whatever their precision. *)
Variable Time : Type.
Variable lt : Time -> Time -> bool.
Variable zero : Time.
Variable add : Time -> Time -> Time.
(** The duration the context reports for a buffer of [n] frames at 24000 Hz. *)
Variable duration : nat -> Time.
Variable atob : string -> option string.

(** The fields of the client; a reference that is either null or not is a
    boolean, [true] when it is set. *)
Record LiveClient : Type := {
  session : bool;
  inputContext : bool;
  outputContext : bool;
  inputSource : bool;
  processor : bool;
  nextStartTime : Time
}.

(** A buffer source started at [when]. *)
Record Scheduled : Type := { when : Time; samples : list Q }.

Definition frames (s : Scheduled) : nat := List.length (samples s).

Inductive Effect : Type :=
| StatusChange (status : Status)
| SessionClose
| InputSourceDisconnect
| ProcessorDisconnect
| InputContextClose
| OutputContextClose
| Start (source : Scheduled).

(** [playAudio], lines 298-328: the exception it dies of, or nothing when
    there is no output context, or the source it starts and the client's new
    state. *)
Definition playAudio (client : LiveClient) (base64 : string) (currentTime : Time)
  : Js.Exn + option (LiveClient * Scheduled) :=
  if negb (outputContext client) then inr None
  else
    match atob base64 with
    | None => inl Js.InvalidCharacterError
    | Some binaryString =>
        match Buffer.newInt16Array (Buffer.bytes_of_binary_string binaryString) with
        | inl e => inl e
        | inr int16 =>
            if (Buffer.length16 int16 =? 0)%nat then inl Js.NotSupportedError
            else
              let channelData := Pcm.channelData int16 in
              let nextStartTime :=
                if lt (nextStartTime client) currentTime then currentTime
                else nextStartTime client in
              let source := {| when := nextStartTime; samples := channelData |} in
              inr (Some
                     ({| session := session client;
                         inputContext := inputContext client;
                         outputContext := outputContext client;
                         inputSource := inputSource client;
                         processor := processor client;
                         nextStartTime :=
                           add nextStartTime (duration (Buffer.length16 int16)) |},
                      source))
        end
    end.

(** What happens to a client during its life: the steps of [connect], the
    transport's callbacks, and the caller's [disconnect]. *)
Inductive Event : Type :=
| ConnectCalled                       (* connect() entered: both contexts created *)
| UserMediaDenied                     (* getUserMedia rejects *)
| SessionRejected                     (* the session promise rejects *)
| SessionResolved                     (* this.session = await sessionPromise *)
| OnOpen
| OnMessage (audioData : option string) (currentTime : Time)
| OnClose
| OnError
| Disconnect.

(** [new LiveClient(onStatusChange)]; the callback is the [StatusChange]
    effect. *)
Definition newLiveClient : LiveClient :=
  {| session := false; inputContext := false; outputContext := false;
     inputSource := false; processor := false; nextStartTime := zero |}.

Definition optionally (present : bool) (e : Effect) : list Effect :=
  if present then [e] else [].

(** One event: the new state and the effects, in order. *)
Definition step (client : LiveClient) (event : Event) : LiveClient * list Effect :=
  match event with
  | ConnectCalled =>
      ({| session := session client; inputContext := true; outputContext := true;
          inputSource := inputSource client; processor := processor client;
          nextStartTime := nextStartTime client |}, [])
  | UserMediaDenied => (client, [StatusChange error])
  | SessionRejected => (client, [StatusChange error])
  | SessionResolved =>
      ({| session := true; inputContext := inputContext client;
          outputContext := outputContext client;
          inputSource := inputSource client; processor := processor client;
          nextStartTime := nextStartTime client |}, [])
  | OnOpen =>
      (* onStatusChange('connected'); startAudioInput(stream, sessionPromise) *)
      (if inputContext client
       then {| session := session client; inputContext := true;
               outputContext := outputContext client;
               inputSource := true; processor := true;
               nextStartTime := nextStartTime client |}
       else client,
       [StatusChange connected])
  | OnMessage audioData currentTime =>
      match audioData with
      | Some base64 =>
          if Js.truthy base64 then
            match playAudio client base64 currentTime with
            | inr (Some (client', source)) => (client', [Start source])
            | _ => (client, [])
            end
          else (client, [])
      | None => (client, [])
      end
  | OnClose => (client, [StatusChange disconnected])
  | OnError => (client, [StatusChange error])
  | Disconnect =>
      (client,
       optionally (session client) SessionClose
       ++ optionally (inputSource client) InputSourceDisconnect
       ++ optionally (processor client) ProcessorDisconnect
       ++ optionally (inputContext client) InputContextClose
       ++ optionally (outputContext client) OutputContextClose
       ++ [StatusChange disconnected])%list
  end.

Fixpoint run (client : LiveClient) (events : list Event) : LiveClient * list Effect :=
  match events with
  | [] => (client, [])
  | event :: events' =>
      let (client', effects) := step client event in
      let (client'', effects') := run client' events' in
      (client'', (effects ++ effects')%list)
  end.

(** The sources started, in order. *)
Definition started (effects : list Effect) : list Scheduled :=
  flat_map (fun e => match e with Start s => [s] | _ => [] end) effects.

(** The terminal statuses notified, in order. *)
Definition terminalNotifications (effects : list Effect) : list Status :=
  flat_map (fun e => match e with
                     | StatusChange disconnected => [disconnected]
                     | StatusChange error => [error]
                     | _ => []
                     end) effects.

(** The events that end a session. *)
Definition terminal (event : Event) : bool :=
  match event with
  | UserMediaDenied | SessionRejected | OnClose | OnError | Disconnect => true
  | _ => false
  end.

(** The terminal status an event reports, if it reports one. *)
Definition terminalStatus (event : Event) : list Status :=
  match event with
  | OnClose | Disconnect => [disconnected]
  | UserMediaDenied | SessionRejected | OnError => [error]
  | _ => []
  end.

(** [a] is not after [b]. *)
Definition notAfter (a b : Time) : Prop := lt b a = false.

(** The end of a scheduled source. *)
Definition finish (s : Scheduled) : Time := add (when s) (duration (frames s)).

(** The later of the cursor and the clock, as line 323 computes it. *)
Definition later (cursor currentTime : Time) : Time :=
  if lt cursor currentTime then currentTime else cursor.

End Clock.

(** The clock over the rationals, 24000 frames to the second. *)
Definition Qlt_bool (a b : Q) : bool := negb (Qle_bool b a).
Definition Qduration (n : nat) : Q := inject_Z (Z.of_nat n) / inject_Z 24000.

End Live.

(** ** Single-shot generation: speech, image, chat title
      (lines 135-163, 342-373 and 396-404) *)

Module Oneshot.
Import Types.
Local Open Scope string_scope.

Definition TTS_MODEL := "gemini-2.5-flash-preview-tts".
Definition IMAGE_GEN_MODEL := "gemini-3-pro-image-preview".
Definition IMAGE_EDIT_MODEL := "gemini-2.5-flash-image".
Definition TITLE_MODEL := "gemini-2.5-flash".

(** What [ai.models.generateContent] receives. *)
Inductive Modality : Type := AUDIO.

Record ImageConfig : Type := { aspectRatio : string; imageSize : string }.

Record RequestConfig : Type := {
  responseModalities : option (list Modality);
  voiceName : option string;          (* speechConfig.voiceConfig.prebuiltVoiceConfig *)
  imageConfig : option ImageConfig
}.

Record Request : Type := {
  model : string;
  contents : list Genai.Part;
  config : option RequestConfig
}.

(** What it answers; every property may be missing. *)
Record InlineData : Type := { mimeType : option string; data : option string }.
Record Part : Type := { text : option string; inlineData : option InlineData }.
Record Content : Type := { parts : option (list Part) }.
Record Candidate : Type := { content : option Content }.
Record Response : Type := {
  candidates : option (list Candidate);
  responseText : option string        (* response.text *)
}.

(** [response.candidates?.[0]?.content?.parts]. *)
Definition firstParts (response : Response) : option (list Part) :=
  match candidates response with
  | Some (candidate :: _) =>
      match content candidate with
      | Some c => parts c
      | None => None
      end
  | _ => None
  end.

(** A possibly undefined string inside a template literal. *)
Definition interpolate (v : option string) : string :=
  match v with Some s => s | None => "undefined" end.

(** [`data:${mimeType};base64,${data}`]. *)
Definition dataUrl (d : InlineData) : string :=
  "data:" ++ interpolate (mimeType d) ++ ";base64," ++ interpolate (data d).

(** The double quote character. *)
Definition dquote : string := String "034" EmptyString.

(** The request of [generateSpeech], lines 140-151. *)
Definition speechRequest (text : string) : Request :=
  {| model := TTS_MODEL;
     contents := [Genai.TextPart text];
     config := Some {| responseModalities := Some [AUDIO];
                       voiceName := Some "Kore";
                       imageConfig := None |} |}.

(** The request of the edit pathway, lines 345-353. *)
Definition editRequest (prompt : string) (attachment : Attachment) : Request :=
  {| model := IMAGE_EDIT_MODEL;
     contents := [Genai.TextPart prompt;
                  Genai.InlineData (Types.mimeType attachment) (Types.data attachment)];
     config := None |}.

(** The request of the generation pathway, lines 358-367. *)
Definition imageRequest (prompt : string) (config : GenerationConfig) : Request :=
  {| model := IMAGE_GEN_MODEL;
     contents := [Genai.TextPart prompt];
     config := Some {| responseModalities := None;
                       voiceName := None;
                       imageConfig :=
                         Some {| aspectRatio := Js.or_else (Types.aspectRatio config) "1:1";
                                 imageSize := Js.or_else (Types.imageSize config) "1K" |} |} |}.

(** The request of [generateChatTitle], lines 398-401. *)
Definition titleRequest (firstMessage : string) : Request :=
  {| model := TITLE_MODEL;
     contents := [Genai.TextPart
                    ("Generate a 3-word title for: " ++ dquote ++ firstMessage ++ dquote)];
     config := None |}.

Section WithBackend.
Variable generateContent : Request -> Errors.RawError + Response.
Variable atob : string -> option string.
(** The error object the platform throws for an exception. *)
Variable raised : Js.Exn -> Errors.RawError.
(** [String.prototype.trim]. *)
Variable trim : string -> string.

(** [generateSpeech], lines 138-163. *)
Definition generateSpeech (text : string) : Errors.Outcome Wav.Blob :=
  match generateContent (speechRequest text) with
  | inl error => Errors.Thrown (Errors.mapError error)
  | inr response =>
      let base64Audio :=
        match firstParts response with
        | Some (part :: _) =>
            match inlineData part with
            | Some d => data d
            | None => None
            end
        | _ => None
        end in
      match base64Audio with
      | Some audio =>
          if Js.truthy audio then
            match Wav.base64PCMToWav atob audio 24000 with
            | inr blob => Errors.Returned blob
            | inl e => Errors.Thrown (Errors.mapError (raised e))
            end
          else Errors.Thrown (Errors.mapError (Errors.Error "No audio generated"))
      | None => Errors.Thrown (Errors.mapError (Errors.Error "No audio generated"))
      end
  end.

(** [parts?.find(p => p.inlineData)] followed by the test
    [part && part.inlineData]. *)
Definition findInline (response : Response) : option InlineData :=
  match firstParts response with
  | Some ps =>
      match find (fun p => match inlineData p with Some _ => true | None => false end) ps with
      | Some part => inlineData part
      | None => None
      end
  | None => None
  end.

(** [generateImage], lines 342-373. *)
Definition generateImage (prompt : string) (config : GenerationConfig)
    (attachment : option Attachment) : Errors.Outcome string :=
  match attachment with
  | Some att =>
      match generateContent (editRequest prompt att) with
      | inl error => Errors.Thrown (Errors.mapError error)
      | inr response =>
          match findInline response with
          | Some d => Errors.Returned (dataUrl d)
          | None =>
              Errors.Thrown (Errors.mapError (Errors.Error "No image returned from edit."))
          end
      end
  | None =>
      match generateContent (imageRequest prompt config) with
      | inl error => Errors.Thrown (Errors.mapError error)
      | inr response =>
          match findInline response with
          | Some d => Errors.Returned (dataUrl d)
          | None => Errors.Thrown (Errors.mapError (Errors.Error "No image generated."))
          end
      end
  end.

(** [generateChatTitle], lines 396-404; the result of the promise, which
    never rejects. *)
Definition generateChatTitle (firstMessage : string) : string :=
  match generateContent (titleRequest firstMessage) with
  | inl _ => "New Chat"
  | inr response => Js.or_else (option_map trim (responseText response)) "New Chat"
  end.
End WithBackend.

(** The request [generateImage] makes. *)
Definition requestOf (prompt : string) (config : GenerationConfig)
    (attachment : option Attachment) : Request :=
  match attachment with
  | Some att => editRequest prompt att
  | None => imageRequest prompt config
  end.

End Oneshot.

(** ** Microphone capture (lines 264-296) *)

Module Capture.
Local Open Scope string_scope.

(** [new Uint8Array(pcm16.buffer)]: the bytes of an Int16Array, each element
    least significant byte first, negative values in two's complement. *)
Definition int16Bytes (pcm16 : list Z) : list Z :=
  flat_map (Buffer.le_bytes 2) pcm16.

(** [binary += String.fromCharCode(bytes[i])] over all bytes. *)
Definition binaryString (bytes : list Z) : string :=
  string_of_list_ascii (map (fun b => ascii_of_N (Z.to_N b)) bytes).

Record RealtimeInput : Type := { mimeType : string; data : string }.

Section WithPlatform.
Variable btoa : string -> string.

(** The [onaudioprocess] handler, lines 269-292: what is passed to
    [session.sendRealtimeInput] for one block of samples. *)
Definition onaudioprocess (inputData : list Q) : RealtimeInput :=
  let pcm16 := Pcm.pcm16 inputData in
  let bytes := int16Bytes pcm16 in
  {| mimeType := "audio/pcm;rate=16000";
     data := btoa (binaryString bytes) |}.
End WithPlatform.

End Capture.

(** ** A reference encoder for base64 (the platform's [btoa]) *)

Module Base64Encode.
Local Open Scope Z_scope.

Definition alphabet (v : Z) : ascii :=
  ascii_of_N (Z.to_N (if v <? 26 then 65 + v
                      else if v <? 52 then 71 + v
                      else if v <? 62 then v - 4
                      else if v =? 62 then 43
                      else 47)).

Fixpoint encode (bs : list Z) : list ascii :=
  match bs with
  | [] => []
  | [a] => [alphabet (a / 4); alphabet ((a mod 4) * 16); "="%char; "="%char]
  | [a; b] =>
      [alphabet (a / 4); alphabet ((a mod 4) * 16 + b / 16);
       alphabet ((b mod 16) * 4); "="%char]
  | a :: b :: c :: rest =>
      alphabet (a / 4) :: alphabet ((a mod 4) * 16 + b / 16)
      :: alphabet ((b mod 16) * 4 + c / 64) :: alphabet (c mod 64)
      :: encode rest
  end.

Definition btoa (s : string) : string :=
  string_of_list_ascii (encode (map Js.charCodeAt (Js.chars s))).

End Base64Encode.

(** ** The chat sessions kept by the application shell

    The state updaters passed to [setSessions] in the application component,
    as functions from the previous state to the next. *)

Module App.
Import Types.
Local Open Scope string_scope.

(** [ChatSession], src/types.ts lines 28-33. *)
Record ChatSession : Type := {
  id : string;
  title : string;
  messages : list Message;
  updatedAt : Z
}.

(** The state of the application component that the session operations
    read and write. *)
Record Shell : Type := {
  sessions : list ChatSession;
  currentSessionId : option string;
  isStreaming : bool
}.

(** [createNewChat]; [newId] is the identifier drawn by [generateId], [now]
    the clock. *)
Definition createNewChat (newId : string) (now : Z) (shell : Shell) : Shell :=
  let newSession :=
    {| id := newId; title := "New Chat"; messages := []; updatedAt := now |} in
  {| sessions := newSession :: sessions shell;
     currentSessionId := Some newId;
     isStreaming := false |}.

(** [deleteSession]. *)
Definition deleteSession (sessionId : string) (shell : Shell) : Shell :=
  let filtered :=
    filter (fun s => negb (String.eqb (id s) sessionId)) (sessions shell) in
  {| sessions := filtered;
     currentSessionId :=
       match currentSessionId shell with
       | Some current =>
           if String.eqb current sessionId then
             match filtered with
             | first :: _ => Some (id first)
             | [] => None
             end
           else currentSessionId shell
       | None => currentSessionId shell
       end;
     isStreaming := isStreaming shell |}.

(** [addMessageToSession]; every matching session reads the clock, [clock k]
    being the k-th reading. *)
Fixpoint addMessageFrom (clock : nat -> Z) (tick : nat) (sessionId : string)
    (message : Message) (prev : list ChatSession) : list ChatSession :=
  match prev with
  | [] => []
  | s :: rest =>
      if String.eqb (id s) sessionId
      then {| id := id s; title := title s;
              messages := (messages s ++ [message])%list;
              updatedAt := clock tick |}
           :: addMessageFrom clock (S tick) sessionId message rest
      else s :: addMessageFrom clock tick sessionId message rest
  end.

Definition addMessageToSession (clock : nat -> Z) (sessionId : string)
    (message : Message) (prev : list ChatSession) : list ChatSession :=
  addMessageFrom clock 0 sessionId message prev.

(** [Partial<Message>]: the properties an update object carries. *)
Record MessageUpdates : Type := {
  newId : option string;
  newRole : option Role;
  newContent : option string;
  newTimestamp : option Z;
  newIsStreaming : option bool;
  newIsError : option bool;
  newAttachments : option (list Attachment);
  newGeneratedImage : option string;
  newGeneratedVideo : option string;
  newAudioData : option string
}.

Definition noUpdates : MessageUpdates :=
  {| newId := None; newRole := None; newContent := None; newTimestamp := None;
     newIsStreaming := None; newIsError := None; newAttachments := None;
     newGeneratedImage := None; newGeneratedVideo := None; newAudioData := None |}.

Definition override {A : Type} (old : A) (new : option A) : A :=
  match new with Some v => v | None => old end.

Definition overrideOptional {A : Type} (old : option A) (new : option A) : option A :=
  match new with Some v => Some v | None => old end.

(** [{ ...m, ...updates }]. *)
Definition applyUpdates (m : Message) (updates : MessageUpdates) : Message :=
  {| Types.id := override (Types.id m) (newId updates);
     role := override (role m) (newRole updates);
     content := override (content m) (newContent updates);
     timestamp := override (timestamp m) (newTimestamp updates);
     Types.isStreaming := overrideOptional (Types.isStreaming m) (newIsStreaming updates);
     isError := overrideOptional (isError m) (newIsError updates);
     attachments := overrideOptional (attachments m) (newAttachments updates);
     generatedImage := overrideOptional (generatedImage m) (newGeneratedImage updates);
     generatedVideo := overrideOptional (generatedVideo m) (newGeneratedVideo updates);
     audioData := overrideOptional (audioData m) (newAudioData updates) |}.

(** Apply [f] to the messages named [messageId] of the sessions named
    [sessionId]: the double [map] shared by [updateMessageInSession] and by
    the chunk callback of [handleSendMessage]. *)
Definition mapMessage (sessionId messageId : string) (f : Message -> Message)
    (prev : list ChatSession) : list ChatSession :=
  map (fun s =>
         if String.eqb (id s) sessionId
         then {| id := id s; title := title s;
                 messages := map (fun m => if String.eqb (Types.id m) messageId
                                           then f m else m) (messages s);
                 updatedAt := updatedAt s |}
         else s) prev.

(** [updateMessageInSession]. *)
Definition updateMessageInSession (sessionId messageId : string)
    (updates : MessageUpdates) (prev : list ChatSession) : list ChatSession :=
  mapMessage sessionId messageId (fun m => applyUpdates m updates) prev.

(** [{ ...m, content: m.content + chunk }]. *)
Definition withChunk (chunk : string) (m : Message) : Message :=
  {| Types.id := Types.id m; role := role m; content := content m ++ chunk;
     timestamp := timestamp m; Types.isStreaming := Types.isStreaming m; isError := isError m;
     attachments := attachments m; generatedImage := generatedImage m;
     generatedVideo := generatedVideo m; audioData := audioData m |}.

(** The [onChunk] callback handed to [streamResponse]. *)
Definition appendChunk (currentSessionId assistantMessageId chunk : string)
    (prev : list ChatSession) : list ChatSession :=
  mapMessage currentSessionId assistantMessageId (withChunk chunk) prev.

(** The state after the callback has run for each chunk, in order. *)
Definition appendChunks (currentSessionId assistantMessageId : string)
    (chunks : list string) (prev : list ChatSession) : list ChatSession :=
  fold_left (fun sessions chunk =>
               appendChunk currentSessionId assistantMessageId chunk sessions)
    chunks prev.

(** The messages of the session named [sessionId] ([currentSession?.messages
    || []] with [find]). *)
Definition messagesOf (sessionId : string) (sessions : list ChatSession)
  : list Message :=
  match find (fun s => String.eqb (id s) sessionId) sessions with
  | Some s => messages s
  | None => []
  end.

(** The selection names an existing session, or there is none. *)
Definition selectionValid (shell : Shell) : Prop :=
  match currentSessionId shell with
  | Some sessionId => In sessionId (map id (sessions shell))
  | None => True
  end.

(** The live indicator and the client reference of [handleLiveToggle]. *)
Record LiveUi : Type := { isLiveActive : bool; hasClient : bool }.

(** The status callback given to [new LiveClient]. *)
Definition onStatus (st : LiveUi) (status : Live.Status) : LiveUi :=
  match status with
  | Live.disconnected | Live.error => {| isLiveActive := false; hasClient := false |}
  | Live.connected => st
  end.

(** The indicator off and the reference dropped. *)
Definition indicatorOff : LiveUi := {| isLiveActive := false; hasClient := false |}.

(** The statuses the client reports, in order. *)
Definition statusChanges {Time : Type} (effects : list (Live.Effect Time))
  : list Live.Status :=
  flat_map (fun e => match e with Live.StatusChange _ s => [s] | _ => [] end) effects.

End App.

(** ** The input area: what is sent, and the attachment list *)

Module InputArea.
Import Types.
Local Open Scope string_scope.

Record State : Type := {
  input : string;
  mode : AppMode;
  attachments : list Attachment;
  aspectRatio : string;
  imageSize : string;
  videoAr : string
}.

(** The arguments of [onSend]. *)
Record Sent : Type := {
  sentMessage : string;
  sentMode : AppMode;
  sentConfig : GenerationConfig;
  sentAttachments : list Attachment
}.

Definition isVideo (m : AppMode) : bool :=
  match m with video => true | _ => false end.

Section WithPlatform.
Variable trim : string -> string.

(** [handleSend]: the call to [onSend], if any, and the state afterwards. *)
Definition handleSend (isStreaming : bool) (st : State) : option Sent * State :=
  if isStreaming then (None, st)
  else if negb (Js.truthy (trim (input st)))
          && (List.length (attachments st) =? 0)%nat then (None, st)
  else
    let config :=
      {| Types.aspectRatio :=
           Some (if isVideo (mode st) then videoAr st else aspectRatio st);
         Types.imageSize := Some (imageSize st);
         Types.resolution := Some "720p" |} in
    (Some {| sentMessage := input st; sentMode := mode st;
             sentConfig := config; sentAttachments := attachments st |},
     {| input := ""; mode := mode st; attachments := [];
        aspectRatio := aspectRatio st; imageSize := imageSize st;
        videoAr := videoAr st |}).
End WithPlatform.

(** [prev.filter((_, i) => i !== index)]. *)
Fixpoint filterIndexFrom (i index : nat) (prev : list Attachment) : list Attachment :=
  match prev with
  | [] => []
  | a :: rest =>
      if (i =? index)%nat then filterIndexFrom (S i) index rest
      else a :: filterIndexFrom (S i) index rest
  end.

Definition removeAttachment (index : nat) (prev : list Attachment) : list Attachment :=
  filterIndexFrom 0 index prev.

End InputArea.

(** ** Which inbound messages produce sound *)

Module Playback.
Local Open Scope string_scope.

(** An inbound message is playable when the client has an output context and
    the message carries a non-empty audio payload that decodes to a positive,
    even number of bytes. *)
Definition playable (atob : string -> option string) (outputContext : bool)
    (audioData : option string) : Prop :=
  outputContext = true /\
  exists base64 decoded,
    audioData = Some base64 /\ base64 <> "" /\
    atob base64 = Some decoded /\
    Nat.even (String.length decoded) = true /\
    String.length decoded <> 0%nat.

End Playback.

(** ** A reference [trim] (leading and trailing ASCII white space)

    Tab, line feed, vertical tab, form feed, carriage return and space only:
    [String.prototype.trim] also removes the non-ASCII white space (U+00A0,
    U+FEFF and the like), so the two agree on the strings that neither start
    nor end with such a character.  It serves to run examples; the
    properties take [trim] as a parameter. *)

Module TrimReference.

Definition is_space (c : ascii) : bool :=
  let n := Js.charCodeAt c in
  ((9 <=? n) && (n <=? 13) || (n =? 32))%Z.

Fixpoint dropSpaces (cs : list ascii) : list ascii :=
  match cs with
  | [] => []
  | c :: rest => if is_space c then dropSpaces rest else cs
  end.

Definition trim (s : string) : string :=
  string_of_list_ascii (rev (dropSpaces (rev (dropSpaces (Js.chars s))))).

End TrimReference.

(* ================================================================== *)
(** * Part II: properties *)
(* ================================================================== *)

(** ** The WAV writer *)

Section WavProperties.
Import Buffer Wav.
Local Open Scope Z_scope.

Lemma le_value_le_bytes (n : nat) (v : Z) :
  le_value (le_bytes n v) = v mod 256 ^ Z.of_nat n.
Proof.
  revert v; induction n as [|n IH]; intros v.
  - simpl. now rewrite Z.mod_1_r.
  - cbn [le_bytes le_value]. rewrite IH.
    rewrite Nat2Z.inj_succ, Z.pow_succ_r by lia.
    rewrite Z.rem_mul_r by lia. reflexivity.
Qed.

Lemma le_value_le_bytes_small (n : nat) (v : Z) :
  0 <= v < 256 ^ Z.of_nat n -> le_value (le_bytes n v) = v.
Proof. intros H. rewrite le_value_le_bytes. now apply Z.mod_small. Qed.

Lemma charCodeAt_range (c : ascii) : 0 <= Js.charCodeAt c < 256.
Proof.
  unfold Js.charCodeAt. pose proof (N_ascii_bounded c) as H.
  change 256 with (Z.of_N 256). lia.
Qed.

Lemma bytes_of_binary_string_codes (s : string) :
  bytes_of_binary_string s = map Js.charCodeAt (Js.chars s).
Proof.
  unfold bytes_of_binary_string. apply map_ext.
  intros c. apply Z.mod_small, charCodeAt_range.
Qed.

Lemma bytes_of_binary_string_length (s : string) :
  List.length (bytes_of_binary_string s) = String.length s.
Proof.
  unfold bytes_of_binary_string, Js.chars.
  rewrite length_map. induction s; simpl; congruence.
Qed.

(** The thirteen writes never leave the 44-byte buffer, and fill it so. *)
Lemma header_writes (riff rate brate data : Z) :
  (writeString 0 "RIFF" ;; setUint32 4 riff true ;;
   writeString 8 "WAVE" ;; writeString 12 "fmt " ;;
   setUint32 16 16 true ;; setUint16 20 1 true ;; setUint16 22 1 true ;;
   setUint32 24 rate true ;; setUint32 28 brate true ;;
   setUint16 32 2 true ;; setUint16 34 16 true ;;
   writeString 36 "data" ;; setUint32 40 data true)%write (alloc 44)
  = Some ([82; 73; 70; 70] ++ le_bytes 4 riff ++ [87; 65; 86; 69]
          ++ [102; 109; 116; 32] ++ [16; 0; 0; 0] ++ [1; 0] ++ [1; 0]
          ++ le_bytes 4 rate ++ le_bytes 4 brate ++ [2; 0] ++ [16; 0]
          ++ [100; 97; 116; 97] ++ le_bytes 4 data).
Proof. reflexivity. Qed.

Lemma base64PCMToWav_blob (atob : string -> option string)
    (base64Pcm binaryString : string) (sampleRate : Z) :
  atob base64Pcm = Some binaryString ->
  Nat.even (String.length binaryString) = true ->
  base64PCMToWav atob base64Pcm sampleRate =
  inr {| blob_bytes :=
           wav_header (Z.of_nat (String.length binaryString)) sampleRate
           ++ map Js.charCodeAt (Js.chars binaryString);
         blob_type := "audio/wav" |}.
Proof.
  intros Hdec Heven. unfold base64PCMToWav. rewrite Hdec.
  unfold newInt16Array. rewrite bytes_of_binary_string_length, Heven.
  cbv zeta. unfold byteLength. cbn [view_buffer].
  rewrite bytes_of_binary_string_length.
  rewrite bytes_of_binary_string_codes.
  change (setUint16 32 (1 * 2) true) with (setUint16 32 2 true).
  rewrite header_writes. reflexivity.
Qed.

Lemma wav_header_fields (n rate : Z) (payload : list Z) :
  let blob := wav_header n rate ++ payload in
  List.length (header blob) = 44%nat /\
  body blob = payload /\
  getUint32 4 blob = (36 + n) mod 2 ^ 32 /\
  getUint16 20 blob = 1 /\
  getUint16 22 blob = 1 /\
  getUint32 24 blob = rate mod 2 ^ 32 /\
  getUint32 28 blob = (rate * 2) mod 2 ^ 32 /\
  getUint16 32 blob = 2 /\
  getUint16 34 blob = 16 /\
  getUint32 40 blob = n mod 2 ^ 32 /\
  riff_tags blob.
Proof.
  cbv zeta.
  pose proof (le_value_le_bytes 4 (36 + n)) as Hriff.
  pose proof (le_value_le_bytes 4 rate) as Hrate.
  pose proof (le_value_le_bytes 4 (rate * 1 * 2)) as Hbrate.
  pose proof (le_value_le_bytes 4 n) as Hdata.
  change (256 ^ Z.of_nat 4) with (2 ^ 32) in *.
  rewrite Z.mul_1_r in Hbrate at 2.
  repeat split; try reflexivity; try assumption.
Qed.

Lemma chars_length (s : string) : List.length (Js.chars s) = String.length s.
Proof. unfold Js.chars. induction s; simpl; congruence. Qed.

(** C1, as amended.  For every payload that [atob] decodes to an even number
    of bytes below 2^32 - 36 and every integer sample rate in [0, 2^31), the
    writer returns a blob of type audio/wav made of a 44-byte header followed
    by the payload bytes unchanged; read little-endian, the header declares
    RIFF size 36 + payload length, format tag 1, one channel, the sample rate,
    byte rate 2 * sampleRate, block align 2, 16 bits per sample and data size
    = payload length, between the RIFF, WAVE, fmt and data tags. *)
Theorem base64PCMToWav_container (atob : string -> option string)
    (base64Pcm binaryString : string) (sampleRate : Z) :
  atob base64Pcm = Some binaryString ->
  Nat.even (String.length binaryString) = true ->
  Z.of_nat (String.length binaryString) < 2 ^ 32 - 36 ->
  0 <= sampleRate < 2 ^ 31 ->
  exists blob,
    base64PCMToWav atob base64Pcm sampleRate = inr blob /\
    blob_type blob = "audio/wav"%string /\
    canonical_container (map Js.charCodeAt (Js.chars binaryString))
      sampleRate (blob_bytes blob) /\
    riff_tags (blob_bytes blob).
Proof.
  intros Hdec Heven Hlen Hrate.
  eexists. split; [ exact (base64PCMToWav_blob atob _ sampleRate Hdec Heven) | ].
  cbn [blob_type blob_bytes]. split; [ reflexivity | ].
  set (n := Z.of_nat (String.length binaryString)) in *.
  set (payload := map Js.charCodeAt (Js.chars binaryString)).
  assert (Hn : Z.of_nat (List.length payload) = n).
  { unfold payload, n. now rewrite length_map, chars_length. }
  destruct (wav_header_fields n sampleRate payload)
    as (H0 & H1 & H2 & H3 & H4 & H5 & H6 & H7 & H8 & H9 & H10).
  assert (Hn0 : 0 <= n) by (unfold n; lia).
  unfold canonical_container. rewrite Hn.
  rewrite Z.mod_small in H2, H5, H6, H9 by lia.
  repeat split; assumption.
Qed.

(** At the deployed rate, on the payload 01 00 02 ff. *)
Lemma base64PCMToWav_container_witness :
  exists blob,
    base64PCMToWav Base64.atob "AQAC/w==" 24000 = inr blob /\
    blob_type blob = "audio/wav"%string /\
    canonical_container [1; 0; 2; 255] 24000 (blob_bytes blob) /\
    riff_tags (blob_bytes blob).
Proof.
  apply (@base64PCMToWav_container Base64.atob "AQAC/w=="
           (String "001" (String "000" (String "002" (String "255" ""))))
           24000).
  - vm_compute. reflexivity.
  - reflexivity.
  - vm_compute. reflexivity.
  - lia.
Defined.

(** C1 as stated fails beyond the 32-bit fields: at a sample rate of 2^31 the
    byte-rate field reads 0, not 2^32. *)
Lemma base64PCMToWav_rate_wraps :
  exists blob,
    base64PCMToWav Base64.atob "AQAC/w==" 2147483648 = inr blob /\
    getUint32 28 (blob_bytes blob) = 0 /\
    ~ canonical_container [1; 0; 2; 255] 2147483648 (blob_bytes blob).
Proof.
  eexists. split; [ vm_compute; reflexivity | ].
  split; [ vm_compute; reflexivity | ].
  intros (_ & _ & _ & _ & _ & _ & H & _). vm_compute in H. discriminate H.
Qed.

End WavProperties.


(** ** The error normalizer *)

Section ErrorProperties.
Import Errors.
Local Open Scope string_scope.

Lemma prefix_iff (p s : string) :
  String.prefix p s = true <-> exists post, s = p ++ post.
Proof.
  revert s; induction p as [|c p IH]; intros s.
  - simpl. split; [ intros _; now exists s | intros _; now destruct s ].
  - destruct s as [|d s]; simpl.
    + split; [ discriminate | intros [post H]; discriminate H ].
    + destruct (ascii_dec c d) as [->|Hne].
      * rewrite IH. split; intros [post H]; exists post; congruence.
      * split; [ discriminate | intros [post H]; congruence ].
Qed.

Lemma append_assoc (a b c : string) : (a ++ b) ++ c = a ++ (b ++ c).
Proof. induction a; simpl; congruence. Qed.










(** An error object of the typed model, seen as a value, is normalized as the
    typed model says. *)
Lemma mapError_ofRaw (error : RawError) :
  Untyped.mapError (Untyped.ofRaw error) = inr (mapError error).
Proof.
  destruct error as [[m|]]; unfold Untyped.mapError, mapError;
    cbn [Untyped.ofRaw Untyped.messageProperty find fst String.eqb Ascii.eqb
         Bool.eqb message Untyped.toLowerCaseIfPresent Untyped.stringOf option_map];
    cbv zeta;
    repeat match goal with |- context [if ?b then _ else _] => destruct b end;
    reflexivity.
Qed.




End ErrorProperties.

(** ** The streaming chat pathway *)

Section ChatProperties.
Import Types Chat.
Local Open Scope string_scope.

Lemma truthy_false_iff (s : string) : Js.truthy s = false <-> s = "".
Proof. destruct s; simpl; split; congruence. Qed.

(** The two filters drop exactly the messages the specification excludes. *)
Lemma filters_drop_iff (msg : Message) :
  negb (flag (isError msg)) && (Js.truthy (content msg) || hasAttachments msg) = false
  <-> excluded msg.
Proof.
  unfold excluded, flag, hasAttachments.
  destruct (isError msg) as [[|]|]; destruct (content msg) as [|c cs];
    destruct (attachments msg) as [[|a atts]|]; simpl; split; intros H;
    try reflexivity; try discriminate H;
    try (destruct H as [H|[H1 [H|H]]]; discriminate);
    first [ left; reflexivity
          | right; split; [ reflexivity | first [ left; reflexivity | right; reflexivity ] ] ].
Qed.

Lemma filters_keep_iff (msg : Message) :
  negb (flag (isError msg)) && (Js.truthy (content msg) || hasAttachments msg) = true
  <-> ~ excluded msg.
Proof.
  rewrite <- filters_drop_iff.
  destruct (negb (flag (isError msg)) && (Js.truthy (content msg) || hasAttachments msg));
    split; congruence.
Qed.

Lemma Kept_filters (messages : list Message) :
  Kept messages
    (filter (fun msg => Js.truthy (content msg) || hasAttachments msg)
       (filter (fun msg => negb (flag (isError msg))) messages)).
Proof.
  induction messages as [|msg messages IH]; [ constructor | ].
  pose proof (filters_keep_iff msg) as Hk.
  pose proof (filters_drop_iff msg) as Hd.
  cbn [filter].
  destruct (negb (flag (isError msg))); cbn [filter].
  - destruct (Js.truthy (content msg) || hasAttachments msg).
    + apply Kept_keep; [ now apply Hk | exact IH ].
    + apply Kept_drop; [ now apply Hd | exact IH ].
  - apply Kept_drop; [ now apply Hd | exact IH ].
Qed.

Lemma inlineOf_parts (atts : list Attachment) :
  flat_map (fun p => match p with
                     | Genai.TextPart _ => []
                     | Genai.InlineData m d => [(m, d)]
                     end) (map inlinePart atts)
  = map (fun a => (mimeType a, data a)) atts.
Proof. induction atts as [|a atts IH]; simpl; congruence. Qed.

Lemma textOf_parts (atts : list Attachment) :
  flat_map (fun p => match p with
                     | Genai.TextPart t => [t]
                     | Genai.InlineData _ _ => []
                     end) (map inlinePart atts) = [].
Proof. induction atts as [|a atts IH]; simpl; congruence. Qed.

Lemma toContent_reads (msg : Message) :
  Genai.role (toContent msg) = role msg /\
  textOf (toContent msg) = content msg /\
  inlineOf (toContent msg) = attachmentsOf msg.
Proof.
  unfold toContent, textOf, inlineOf, attachmentsOf. cbn [Genai.role Genai.parts].
  rewrite !flat_map_app.
  split; [ reflexivity | split ].
  - assert (Ht : flat_map (fun p => match p with
                                    | Genai.TextPart t => [t]
                                    | Genai.InlineData _ _ => []
                                    end)
                   match attachments msg with
                   | Some atts => map inlinePart atts
                   | None => []
                   end = []).
    { destruct (attachments msg); [ apply textOf_parts | reflexivity ]. }
    rewrite Ht, app_nil_r.
    destruct (content msg); reflexivity.
  - destruct (content msg); cbn [Js.truthy flat_map app];
      (destruct (attachments msg); [ apply inlineOf_parts | reflexivity ]).
Qed.

(** C9.  The history sent to the backend is the message list without the
    messages whose error flag is set and without those that have neither
    content nor attachments; the remaining messages appear in their original
    order, each with its role, its content and its attachments (MIME type and
    data of each, in order). *)
Theorem mapMessagesToHistory_keeps (history : list Message) (newMessage : string)
    (attachments : list Attachment) (mode : AppMode) :
  exists kept,
    Kept history kept /\
    Forall2 (fun msg c =>
               Genai.role c = role msg /\
               textOf c = content msg /\
               inlineOf c = attachmentsOf msg)
      kept (Genai.history (chatRequest history newMessage attachments mode)).
Proof.
  eexists. split; [ apply Kept_filters | ].
  unfold chatRequest.
  destruct (determineModelAndConfig mode attachments) as [m c].
  cbn [Genai.history]. unfold mapMessagesToHistory.
  induction (filter _ (filter _ history)) as [|msg l IH]; cbn [map].
  - constructor.
  - constructor; [ apply toContent_reads | exact IH ].
Qed.

Lemma hasAudio_some (attachments : list Attachment) :
  hasAudio attachments ->
  (0 <? List.length attachments)%nat = true /\
  existsb (fun a => Js.startsWith (mimeType a) "audio/") attachments = true.
Proof.
  intros (a & Hin & rest & Hmime). split.
  - destruct attachments; [ destruct Hin | reflexivity ].
  - apply existsb_exists. exists a. split; [ exact Hin | ].
    unfold Js.startsWith. apply prefix_iff. now exists rest.
Qed.

(** C3, as amended.  With an attachment whose MIME type starts with "audio/",
    the request goes to the audio model (with the plain configuration) in
    every mode other than thinking, fast and maps, chat in particular; in
    thinking, fast and maps mode the model and the whole configuration are
    those of the mode (the thinking budget of 32768, the plain configuration,
    the Google Maps tool), the same as for any other attachment list. *)
Theorem audio_attachment_profile (history : list Message) (newMessage : string)
    (attachments : list Attachment) (mode : AppMode) :
  hasAudio attachments ->
  let request := chatRequest history newMessage attachments mode in
  (mode <> thinking -> mode <> fast -> mode <> maps ->
   Genai.model request = AUDIO_MODEL /\
   Genai.config request
   = {| Genai.systemInstruction :=
          "You are Aira, a sophisticated AI assistant. Use Markdown.";
        Genai.thinkingConfig := None;
        Genai.tools := None |}) /\
  (mode = thinking ->
   Genai.model request = THINKING_MODEL /\
   Genai.config request
   = {| Genai.systemInstruction :=
          "You are Aira, a sophisticated AI assistant. Use Markdown.";
        Genai.thinkingConfig := Some {| Genai.thinkingBudget := 32768 |};
        Genai.tools := None |}) /\
  (mode = fast ->
   Genai.model request = FAST_MODEL /\
   Genai.config request
   = {| Genai.systemInstruction :=
          "You are Aira, a sophisticated AI assistant. Use Markdown.";
        Genai.thinkingConfig := None;
        Genai.tools := None |}) /\
  (mode = maps ->
   Genai.model request = MAPS_MODEL /\
   Genai.config request
   = {| Genai.systemInstruction :=
          "You are Aira, a sophisticated AI assistant. Use Markdown.";
        Genai.thinkingConfig := None;
        Genai.tools := Some [Genai.googleMaps] |}) /\
  (mode = thinking \/ mode = fast \/ mode = maps ->
   forall others : list Attachment,
     Genai.model (chatRequest history newMessage others mode) = Genai.model request /\
     Genai.config (chatRequest history newMessage others mode) = Genai.config request).
Proof.
  intros Haudio request. subst request. unfold chatRequest.
  destruct (hasAudio_some Haudio) as [Hlen Hex].
  split; [ | split; [ | split; [ | split ] ] ].
  - intros H1 H2 H3.
    destruct mode; try congruence;
      unfold determineModelAndConfig; rewrite Hlen, Hex; split; reflexivity.
  - intros ->. split; reflexivity.
  - intros ->. split; reflexivity.
  - intros ->. split; reflexivity.
  - intros [-> | [-> | ->]] others; split; reflexivity.
Qed.

(** A voice note sent in chat mode. *)
Lemma audio_attachment_profile_witness :
  let attachments := [ {| mimeType := "audio/wav"; data := "AAAA"; name := None |} ] in
  hasAudio attachments /\
  Genai.model (chatRequest [] "What is said here?" attachments chat) = "gemini-2.5-flash" /\
  Genai.config (chatRequest [] "What is said here?" attachments chat)
  = {| Genai.systemInstruction :=
         "You are Aira, a sophisticated AI assistant. Use Markdown.";
       Genai.thinkingConfig := None;
       Genai.tools := None |}.
Proof.
  cbv zeta.
  assert (Haudio : hasAudio [ {| mimeType := "audio/wav"; data := "AAAA"; name := None |} ]).
  { eexists. split; [ left; reflexivity | ]. exists "wav". reflexivity. }
  split; [ exact Haudio | ].
  apply (proj1 (audio_attachment_profile [] "What is said here?" chat Haudio));
    discriminate.
Defined.

(** C3 as stated fails: in thinking mode an audio attachment does not change
    the model. *)
Lemma thinking_mode_ignores_audio :
  let attachments := [ {| mimeType := "audio/wav"; data := "AAAA"; name := None |} ] in
  hasAudio attachments /\
  Genai.model (chatRequest [] "What is said here?" attachments thinking)
  = "gemini-3-pro-preview" /\
  Genai.model (chatRequest [] "What is said here?" attachments thinking)
  <> AUDIO_MODEL.
Proof.
  cbv zeta. split; [ | split ].
  - eexists. split; [ left; reflexivity | ]. exists "wav". reflexivity.
  - reflexivity.
  - discriminate.
Qed.

(** *** Consuming the stream *)

Lemma forAwait_delivered (signal : option AbortSignal)
    (delivered rest : list Genai.Chunk) (ending : StreamEnd) :
  forall (k : nat) (fullText : string),
    (forall j, (j < List.length delivered)%nat -> aborted signal (k + j) = false) ->
    forAwait signal k (delivered ++ rest) ending fullText =
    (filter Js.truthy (map chunkText delivered)
     ++ fst (forAwait signal (k + List.length delivered) rest ending
               (fullText ++ concat "" (map chunkText delivered))),
     snd (forAwait signal (k + List.length delivered) rest ending
            (fullText ++ concat "" (map chunkText delivered))))%list.
Proof.
  induction delivered as [|chunk delivered IH]; intros k fullText Hclear.
  - cbn [List.length map concat filter List.app].
    rewrite Nat.add_0_r.
    assert (E : fullText ++ "" = fullText) by (induction fullText; simpl; congruence).
    rewrite E. now destruct (forAwait signal k rest ending fullText).
  - cbn [List.app forAwait].
    assert (H0 : aborted signal k = false).
    { rewrite <- (Nat.add_0_r k). apply Hclear. simpl. lia. }
    rewrite H0.
    assert (Hrest : forall j, (j < List.length delivered)%nat ->
                              aborted signal (S k + j) = false).
    { intros j Hj. replace (S k + j)%nat with (k + S j)%nat by lia.
      apply Hclear. simpl. lia. }
    assert (Eidx : (k + List.length (chunk :: delivered))%nat
                   = (S k + List.length delivered)%nat) by (simpl; lia).
    rewrite Eidx.
    assert (Econcat : forall t, concat "" (t :: map chunkText delivered)
                                = t ++ concat "" (map chunkText delivered)).
    { intros t. destruct (map chunkText delivered); simpl; [ | reflexivity ].
      induction t; simpl; congruence. }
    cbn [map]. rewrite Econcat.
    destruct chunk as [[t|]]; unfold chunkText at 1 2 3; cbn [Genai.text].
    + destruct (Js.truthy t) eqn:Ht.
      * rewrite (IH (S k) (fullText ++ t) Hrest).
        cbn [filter]. rewrite Ht. rewrite append_assoc. reflexivity.
      * apply truthy_false_iff in Ht. subst t.
        rewrite (IH (S k) fullText Hrest). reflexivity.
    + rewrite (IH (S k) fullText Hrest). reflexivity.
Qed.

(** C2, as amended.  When the signal becomes aborted after [N] chunks have
    been delivered, and the stream then delivers a further chunk or is
    exhausted (it does not fail at that point), the consumer returns the
    concatenation of the texts of those [N] chunks, has called [onChunk] with
    the non-empty texts among them, in order, and with nothing else, and
    raises no error. *)
Theorem streamResponse_cancelled (ai : Genai.ChatRequest -> StreamCall)
    (history : list Message) (newMessage : string)
    (attachments : list Attachment) (mode : AppMode) (signal : AbortSignal)
    (delivered rest : list Genai.Chunk) (ending : StreamEnd) :
  ai (chatRequest history newMessage attachments mode)
  = Streaming (delivered ++ rest) ending ->
  abortedAfter (List.length delivered) signal ->
  (rest = [] -> ending = Exhausted) ->
  streamResponse ai history newMessage attachments mode (Some signal)
  = (filter Js.truthy (map chunkText delivered),
     Errors.Returned (concat "" (map chunkText delivered))).
Proof.
  intros Hcall [Hclear Hset] Hnext. unfold streamResponse. rewrite Hcall.
  rewrite (@forAwait_delivered (Some signal) delivered rest ending 0 "")
    by (intros j Hj; now apply Hclear).
  cbn [Nat.add String.append].
  destruct rest as [|chunk rest].
  - rewrite (Hnext eq_refl). cbn [forAwait fst snd].
    now rewrite app_nil_r.
  - cbn [forAwait aborted]. rewrite Hset. cbn [fst snd].
    now rewrite app_nil_r.
Qed.

(** Two chunks are delivered, the user stops the generation, a third chunk
    still arrives. *)
Lemma streamResponse_cancelled_witness :
  let signal := fun k => (2 <=? k)%nat in
  let ai := fun _ : Genai.ChatRequest =>
    Streaming [ {| Genai.text := Some "Hel" |}; {| Genai.text := Some "lo" |};
                {| Genai.text := Some ", world" |} ] Exhausted in
  streamResponse ai [] "Hi" [] chat (Some signal)
  = (["Hel"; "lo"], Errors.Returned "Hello").
Proof.
  cbv zeta.
  apply (@streamResponse_cancelled _ [] "Hi" [] chat (fun k => (2 <=? k)%nat)
           [ {| Genai.text := Some "Hel" |}; {| Genai.text := Some "lo" |} ]
           [ {| Genai.text := Some ", world" |} ] Exhausted).
  - reflexivity.
  - split; [ | reflexivity ].
    intros k Hk. apply Nat.leb_gt. exact Hk.
  - discriminate.
Defined.

(** C2 as stated fails when the stream itself fails once the signal is
    aborted: the text delivered so far is not returned. *)
Lemma cancelled_then_failed_returns_nothing :
  let signal := fun k => (1 <=? k)%nat in
  let ai := fun _ : Genai.ChatRequest =>
    Streaming [ {| Genai.text := Some "Hello" |} ]
      (Failed {| Errors.message := Some "network error" |}) in
  abortedAfter 1 signal /\
  streamResponse ai [] "Hi" [] chat (Some signal)
  = (["Hello"], Errors.Returned "") /\
  Errors.Returned "" <> Errors.Returned (concat "" (map chunkText [ {| Genai.text := Some "Hello" |} ])).
Proof.
  cbv zeta. split; [ | split ].
  - split; [ | reflexivity ].
    intros k Hk. apply Nat.leb_gt. exact Hk.
  - reflexivity.
  - discriminate.
Qed.

Lemma forAwait_raised (signal : option AbortSignal) (chunks : list Genai.Chunk)
    (ending : StreamEnd) :
  forall (k : nat) (fullText : string) (k' : nat) (error : Errors.RawError),
    snd (forAwait signal k chunks ending fullText) = Raised k' error ->
    ending = Failed error /\ k' = (k + List.length chunks)%nat /\
    forall j, (j < List.length chunks)%nat -> aborted signal (k + j) = false.
Proof.
  induction chunks as [|chunk chunks IH]; intros k fullText k' error H.
  - cbn [forAwait] in H. destruct ending; cbn [snd] in H; [ discriminate H | ].
    injection H as <- <-. cbn [List.length].
    repeat split; [ lia | intros j Hj; lia ].
  - cbn [forAwait] in H.
    destruct (aborted signal k) eqn:Hk; [ discriminate H | ].
    assert (Hsnd : exists fullText',
               snd (forAwait signal (S k) chunks ending fullText') = Raised k' error).
    { destruct (Genai.text chunk) as [t|]; [ destruct (Js.truthy t) | ].
      - destruct (forAwait signal (S k) chunks ending (fullText ++ t)) as [calls r] eqn:E.
        exists (fullText ++ t). now rewrite E.
      - now exists fullText.
      - now exists fullText. }
    destruct Hsnd as [fullText' Hsnd].
    destruct (IH _ _ _ _ Hsnd) as (He & Hk' & Hclear).
    cbn [List.length]. repeat split; [ exact He | lia | ].
    intros [|j] Hj.
    + now rewrite Nat.add_0_r.
    + replace (k + S j)%nat with (S k + j)%nat by lia. apply Hclear. lia.
Qed.

(** C10.  When the stream call raises while the signal is aborted, the
    consumer returns the empty string, whatever text had been accumulated,
    and raises nothing; when it raises while the signal is not aborted, the
    normalized error is thrown; and an error is thrown in no other case. *)
Theorem streamResponse_failure (ai : Genai.ChatRequest -> StreamCall)
    (history : list Message) (newMessage : string)
    (attachments : list Attachment) (mode : AppMode)
    (signal : option AbortSignal) :
  let call := ai (chatRequest history newMessage attachments mode) in
  let outcome := snd (streamResponse ai history newMessage attachments mode signal) in
  (forall k error, raises call signal k error ->
     (aborted signal k = true -> outcome = Errors.Returned "") /\
     (aborted signal k = false -> outcome = Errors.Thrown (Errors.mapError error))) /\
  (forall e, outcome = Errors.Thrown e ->
     exists k error,
       raises call signal k error /\ aborted signal k = false /\
       e = Errors.mapError error).
Proof.
  cbv zeta. unfold streamResponse.
  destruct (ai (chatRequest history newMessage attachments mode))
    as [error0|chunks ending] eqn:Hcall.
  - split.
    + intros k error [[Heq ->]|(chunks & Heq & _)]; [ | discriminate Heq ].
      injection Heq as ->.
      split; intros Hk; rewrite Hk; reflexivity.
    + intros e He. destruct (aborted signal 0) eqn:H0; cbn [snd] in He;
        [ discriminate He | ].
      injection He as <-. exists 0%nat, error0.
      repeat split; [ now left | exact H0 ].
  - split.
    + intros k error [[Heq _]|(chunks' & Heq & -> & Hclear)]; [ discriminate Heq | ].
      injection Heq as <- ->.
      pose proof (@forAwait_delivered signal chunks [] (Failed error) 0 "" Hclear) as E.
      rewrite app_nil_r in E. rewrite E. cbn [forAwait snd fst Nat.add].
      split; intros Hk; rewrite Hk; reflexivity.
    + intros e He.
      destruct (forAwait signal 0 chunks ending "") as [calls r] eqn:E.
      destruct r as [fullText|k error]; [ discriminate He | ].
      destruct (aborted signal k) eqn:Hk; cbn [snd] in He; [ discriminate He | ].
      injection He as <-.
      assert (Hs : snd (forAwait signal 0 chunks ending "") = Raised k error)
        by now rewrite E.
      destruct (forAwait_raised _ _ _ _ _ Hs) as (-> & -> & Hclear).
      exists (List.length chunks), error.
      repeat split; [ | exact Hk ].
      right. exists chunks. repeat split. exact Hclear.
Qed.

(** The connection drops after one chunk, once the user has stopped the
    generation: nothing is returned and nothing is thrown. *)
Lemma streamResponse_failure_witness :
  let signal := Some (fun k => (1 <=? k)%nat) in
  let ai := fun _ : Genai.ChatRequest =>
    Streaming [ {| Genai.text := Some "Hello" |} ]
      (Failed {| Errors.message := Some "network error" |}) in
  snd (streamResponse ai [] "Hi" [] chat signal) = Errors.Returned "".
Proof.
  cbv zeta.
  pose proof (@streamResponse_failure
                (fun _ => Streaming [ {| Genai.text := Some "Hello" |} ]
                            (Failed {| Errors.message := Some "network error" |}))
                [] "Hi" [] chat (Some (fun k => (1 <=? k)%nat))) as [H _].
  apply (H 1%nat {| Errors.message := Some "network error" |}).
  - right. eexists. split; [ reflexivity | ]. split; [ reflexivity | ].
    intros j Hj. apply Nat.leb_gt. exact Hj.
  - reflexivity.
Defined.

End ChatProperties.

(** ** Sample conversion *)

Section PcmProperties.
Import Pcm.

Lemma trunc_inject_Z (z : Z) : trunc (inject_Z z) = z.
Proof. unfold trunc. simpl. apply Z.quot_1_r. Qed.

Lemma trunc_le (x y : Q) : (x <= y)%Q -> (trunc x <= trunc y)%Z.
Proof.
  destruct x as [a b], y as [c d]. unfold Qle, trunc. simpl. intros H.
  rewrite <- (Z.quot_mul_cancel_r a (Zpos b) (Zpos d)) by lia.
  rewrite <- (Z.quot_mul_cancel_r c (Zpos d) (Zpos b)) by lia.
  rewrite (Z.mul_comm (Zpos d) (Zpos b)).
  apply Z.quot_le_mono; lia.
Qed.

Lemma toInt16_small (z : Z) :
  (-32768 <= z <= 32767)%Z -> Buffer.toInt16 z = z.
Proof. intros H. unfold Buffer.toInt16. rewrite Z.mod_small; lia. Qed.

Lemma scaled_range (x : Q) :
  normalized x -> (-32767 <= trunc (x * inject_Z 32767) <= 32767)%Z.
Proof.
  intros [Hlo Hhi]. split.
  - apply Z.le_trans with (trunc (inject_Z (-32767)));
      [ rewrite trunc_inject_Z; lia | apply trunc_le ].
    destruct x as [a b]. unfold Qle in *. simpl in *. lia.
  - apply Z.le_trans with (trunc (inject_Z 32767));
      [ apply trunc_le | rewrite trunc_inject_Z; lia ].
    destruct x as [a b]. unfold Qle in *. simpl in *. lia.
Qed.

Lemma floatToInt16_trunc (x : Q) :
  normalized x -> floatToInt16 x = trunc (x * inject_Z 32767).
Proof.
  intros H. unfold floatToInt16. apply toInt16_small.
  pose proof (scaled_range H). lia.
Qed.

(** The quotient towards zero is within one divisor of the dividend, on the
    dividend's side of it. *)
Lemma quot_enclosure (a d : Z) :
  (0 < d)%Z ->
  (0 <= a -> d * (a ÷ d) <= a < d * (a ÷ d) + d)%Z /\
  (a <= 0 -> d * (a ÷ d) - d < a <= d * (a ÷ d))%Z.
Proof.
  intros Hd. pose proof (Z.quot_rem' a d) as E. split; intros Ha.
  - pose proof (Z.rem_bound_pos a d Ha Hd). lia.
  - assert (H : (0 <= Z.rem (- a) d < d)%Z) by (apply Z.rem_bound_pos; lia).
    rewrite Z.rem_opp_l in H by lia. lia.
Qed.

Lemma roundTrip_error (x : Q) :
  normalized x -> (Qabs (roundTrip x - x) < 2 / 32768)%Q.
Proof.
  intros Hx. unfold roundTrip. rewrite (floatToInt16_trunc Hx).
  destruct Hx as [Hlo Hhi].
  apply Qabs_Qlt_condition.
  destruct x as [a b]. unfold trunc, int16ToFloat, Qle, Qlt in *. simpl in *.
  rewrite Pos.mul_1_r.
  destruct (quot_enclosure (a * 32767) (d := Zpos b)) as [Hpos Hneg]; [ lia | ].
  set (t := ((a * 32767) ÷ Zpos b)%Z) in *.
  destruct (Z.le_gt_cases 0 a) as [Ha|Ha].
  - specialize (Hpos ltac:(lia)). split; nia.
  - specialize (Hneg ltac:(lia)). split; nia.
Qed.

Lemma roundTrip_monotone (x y : Q) :
  normalized x -> normalized y -> (x <= y)%Q -> (roundTrip x <= roundTrip y)%Q.
Proof.
  intros Hx Hy Hxy. unfold roundTrip.
  rewrite (floatToInt16_trunc Hx), (floatToInt16_trunc Hy).
  assert (Ht : (trunc (x * inject_Z 32767) <= trunc (y * inject_Z 32767))%Z).
  { apply trunc_le. apply Qmult_le_compat_r; [ exact Hxy | discriminate ]. }
  unfold int16ToFloat, Qle. simpl. lia.
Qed.

(** C4, as amended.  For every normalized sample [x], the Int16 value is the
    truncation of [32767 * x], lies in [-32767, 32767] (the store does not
    wrap; 1 gives 32767 and -1 gives -32767), and decoding it gives a value
    less than 2/32768 away from [x]; the composed map is monotonic on
    normalized samples. *)
Theorem sample_roundTrip (x : Q) :
  normalized x ->
  floatToInt16 x = trunc (x * inject_Z 32767) /\
  (-32767 <= floatToInt16 x <= 32767)%Z /\
  floatToInt16 1 = 32767%Z /\
  floatToInt16 (- (1)) = (-32767)%Z /\
  (Qabs (roundTrip x - x) < 2 / 32768)%Q /\
  (forall y, normalized y -> (x <= y)%Q -> (roundTrip x <= roundTrip y)%Q).
Proof.
  intros Hx. repeat split.
  - now apply floatToInt16_trunc.
  - rewrite (floatToInt16_trunc Hx). now apply scaled_range.
  - rewrite (floatToInt16_trunc Hx). now apply scaled_range.
  - now apply roundTrip_error.
  - intros y Hy Hxy. now apply roundTrip_monotone.
Qed.

(** Half scale: 16383/32768 comes back. *)
Lemma sample_roundTrip_witness :
  normalized (1 # 2) /\
  floatToInt16 (1 # 2) = trunc ((1 # 2) * inject_Z 32767) /\
  (Qabs (roundTrip (1 # 2) - (1 # 2)) < 2 / 32768)%Q.
Proof.
  assert (H : normalized (1 # 2)) by (split; discriminate).
  destruct (sample_roundTrip H) as (H1 & _ & _ & _ & H5 & _).
  exact (conj H (conj H1 H5)).
Defined.

(** C4 as stated fails: the sample 1 - 2^-17 (a Float32) encodes to 32766
    and comes back 7/131072 = 1.75/32768 below itself. *)
Lemma roundTrip_error_exceeds_one_step :
  normalized (131071 # 131072) /\
  floatToInt16 (131071 # 131072) = 32766%Z /\
  ~ (Qabs (roundTrip (131071 # 131072) - (131071 # 131072)) <= 1 / 32768)%Q.
Proof.
  split; [ split; discriminate | ].
  split; [ reflexivity | ].
  intros H. vm_compute in H. apply H. reflexivity.
Qed.

End PcmProperties.

(** ** The video poller *)

Section VideoProperties.
Import Video.
Local Open Scope string_scope.

Lemma pollLoop_pending (pendings : list Operation) :
  forall (operation final : Operation) (rest : list (Errors.RawError + Operation)),
    pending operation -> Forall pending pendings ->
    Chat.flag (done final) = true ->
    pollLoop operation (map inr pendings ++ inr final :: rest)
    = (flat_map (fun o => [Wait 5000; GetVideosOperation o]) (operation :: pendings),
       Finished final).
Proof.
  induction pendings as [|p pendings IH]; intros operation final rest Hop Hall Hfinal.
  - cbn [map List.app pollLoop flat_map]. rewrite Hop.
    destruct rest; cbn [pollLoop]; rewrite Hfinal; reflexivity.
  - inversion Hall as [|? ? Hp Hall']; subst.
    cbn [map List.app pollLoop]. rewrite Hop.
    rewrite (IH p final rest Hp Hall' Hfinal). reflexivity.
Qed.

Lemma requeries_polls (operations : list Operation) :
  requeries (flat_map (fun o => [Wait 5000; GetVideosOperation o]) operations)
  = operations.
Proof. induction operations as [|o l IH]; simpl; congruence. Qed.

Lemma waits_polls (operations : list Operation) :
  waits (flat_map (fun o => [Wait 5000; GetVideosOperation o]) operations)
  = repeat 5000%Z (List.length operations).
Proof. induction operations as [|o l IH]; simpl; congruence. Qed.

(** C5, as amended.  When the operation returned by the submission is not yet
    done and the answers to the re-queries are [K] operations that are not
    done followed by one that is, the poller makes exactly [K+1] re-queries,
    each after a wait of 5000 ms (the first with the submitted operation,
    each next one with the previous answer), and then returns the first
    generated video's URI of the final answer with "&key=" and the API key
    appended; when the final answer has no such URI it throws the error
    "Video generation failed.". *)
Theorem generateVideo_polls (API_KEY : string)
    (generateVideos : VideoPayload -> Errors.RawError + Operation)
    (prompt : string) (config : Types.GenerationConfig)
    (attachment : option Types.Attachment)
    (initial final : Operation) (pendings : list Operation)
    (rest : list (Errors.RawError + Operation)) :
  generateVideos (videoPayload prompt config attachment) = inr initial ->
  pending initial ->
  Forall pending pendings ->
  Chat.flag (done final) = true ->
  let result :=
    generateVideo API_KEY generateVideos (map inr pendings ++ inr final :: rest)
      prompt config attachment in
  fst result
  = GenerateVideos (videoPayload prompt config attachment)
    :: flat_map (fun o => [Wait 5000; GetVideosOperation o]) (initial :: pendings) /\
  List.length (requeries (fst result)) = S (List.length pendings) /\
  waits (fst result) = repeat 5000%Z (S (List.length pendings)) /\
  (forall videoUri,
     firstVideoUri final = Some videoUri -> videoUri <> "" ->
     snd result = Some (Errors.Returned (videoUri ++ "&key=" ++ API_KEY))) /\
  (firstVideoUri final = None \/ firstVideoUri final = Some "" ->
   snd result = Some (Errors.Thrown (Errors.Error "Video generation failed."))).
Proof.
  intros Hsubmit Hinit Hpend Hfinal result. subst result.
  unfold generateVideo. rewrite Hsubmit.
  rewrite (@pollLoop_pending pendings initial final rest Hinit Hpend Hfinal).
  cbn [fst snd].
  split; [ reflexivity | ].
  split; [ | split; [ | split ] ].
  - change (requeries (?e :: ?l)) with (requeries l).
    rewrite requeries_polls. reflexivity.
  - change (waits (?e :: ?l)) with (waits l).
    rewrite waits_polls. reflexivity.
  - intros videoUri Huri Hne. rewrite Huri.
    destruct videoUri; [ congruence | reflexivity ].
  - intros [Huri|Huri]; rewrite Huri; reflexivity.
Qed.

(** Two answers "not done", then the video. *)
Lemma generateVideo_polls_witness :
  let initial := {| done := None; response := None |} in
  let running := {| done := Some false; response := None |} in
  let final :=
    {| done := Some true;
       response := Some {| generatedVideos :=
         Some [ {| video := Some {| uri := Some "https://videos.example/v1?alt=media" |} |} ] |} |} in
  let result :=
    generateVideo "k3y" (fun _ => inr initial) [inr running; inr running; inr final]
      "a red cube" {| Types.aspectRatio := None; Types.imageSize := None;
                      Types.resolution := None |} None in
  List.length (requeries (fst result)) = 3%nat /\
  waits (fst result) = [5000; 5000; 5000]%Z /\
  snd result = Some (Errors.Returned "https://videos.example/v1?alt=media&key=k3y").
Proof.
  cbv zeta.
  pose proof (@generateVideo_polls "k3y"
    (fun _ => inr {| done := None; response := None |})
    "a red cube"
    {| Types.aspectRatio := None; Types.imageSize := None; Types.resolution := None |}
    None
    {| done := None; response := None |}
    {| done := Some true;
       response := Some {| generatedVideos :=
         Some [ {| video := Some {| uri := Some "https://videos.example/v1?alt=media" |} |} ] |} |}
    [ {| done := Some false; response := None |};
      {| done := Some false; response := None |} ]
    [] eq_refl eq_refl) as H.
  specialize (H ltac:(repeat constructor) eq_refl).
  cbv zeta in H. destruct H as (_ & Hn & Hw & Hret & _).
  split; [ exact Hn | split; [ exact Hw | ] ].
  apply (Hret "https://videos.example/v1?alt=media"); [ reflexivity | discriminate ].
Defined.

(** C5 as stated fails twice over: what is returned is not the media
    reference itself but the reference with the key appended; and an
    operation that is already done when submitted is not re-queried at all. *)
Lemma generateVideo_returns_keyed_reference :
  let reference := "https://videos.example/v1?alt=media" in
  let final :=
    {| done := Some true;
       response := Some {| generatedVideos :=
         Some [ {| video := Some {| uri := Some reference |} |} ] |} |} in
  let initial := {| done := None; response := None |} in
  let config := {| Types.aspectRatio := None; Types.imageSize := None;
                   Types.resolution := None |} in
  (firstVideoUri final = Some reference /\
   snd (generateVideo "k3y" (fun _ => inr initial) [inr final] "a red cube" config None)
   = Some (Errors.Returned "https://videos.example/v1?alt=media&key=k3y") /\
   snd (generateVideo "k3y" (fun _ => inr initial) [inr final] "a red cube" config None)
   <> Some (Errors.Returned reference)) /\
  requeries (fst (generateVideo "k3y" (fun _ => inr final) [inr final] "a red cube" config None))
  = [].
Proof.
  cbv zeta. repeat split; try reflexivity. discriminate.
Qed.

End VideoProperties.

(** ** The real-time voice session *)

Section SessionProperties.
Import Live.
Variable Time : Type.
Variable lt : Time -> Time -> bool.
Variable add : Time -> Time -> Time.
Variable duration : nat -> Time.
Variable atob : string -> option string.

Local Notation "'stepOf'" := (step lt add duration atob).
Local Notation "'runOf'" := (run lt add duration atob).
Local Notation "'play'" := (playAudio lt add duration atob).

Lemma terminalNotifications_app (a b : list (Effect Time)) :
  terminalNotifications (a ++ b)
  = terminalNotifications a ++ terminalNotifications b.
Proof. unfold terminalNotifications. apply flat_map_app. Qed.

Lemma started_app (a b : list (Effect Time)) :
  started (a ++ b) = started a ++ started b.
Proof. unfold started. apply flat_map_app. Qed.

Lemma run_cons (client : LiveClient Time) (event : Event Time)
    (events : list (Event Time)) :
  runOf client (event :: events)
  = (fst (runOf (fst (stepOf client event)) events),
     snd (stepOf client event) ++ snd (runOf (fst (stepOf client event)) events)).
Proof.
  cbn [run]. destruct (stepOf client event) as [client' effects].
  cbn [fst snd]. now destruct (runOf client' events).
Qed.

Lemma step_terminal (client : LiveClient Time) (event : Event Time) :
  terminalNotifications (snd (stepOf client event)) = terminalStatus event.
Proof.
  destruct event as [ | | | | |audioData currentTime| | | ]; try reflexivity.
  - cbn [step]. destruct audioData as [base64|]; [ | reflexivity ].
    destruct (Js.truthy base64); [ | reflexivity ].
    destruct (play client base64 currentTime) as [e|[[client' source]|]];
      reflexivity.
  - cbn [step snd].
    destruct (session client), (inputSource client), (processor client),
      (inputContext client), (outputContext client); reflexivity.
Qed.

(** C6, as amended.  Over any life of a client, the status callback receives
    one terminal status for each terminal event, in order: "error" for a
    refused microphone, a rejected session and a transport error,
    "disconnected" for a transport close and for an explicit disconnect.  So
    a terminal status is notified at least once as soon as the session ends,
    and twice ("disconnected", "disconnected") when an explicit disconnect
    is followed by the transport's close callback. *)
Theorem terminal_notifications (client : LiveClient Time)
    (events : list (Event Time)) :
  terminalNotifications (snd (runOf client events))
  = flat_map (@terminalStatus Time) events /\
  terminalNotifications (snd (runOf client (events ++ [Disconnect Time; OnClose Time])))
  = terminalNotifications (snd (runOf client events)) ++ [disconnected; disconnected].
Proof.
  assert (H : forall (evs : list (Event Time)) (c : LiveClient Time),
             terminalNotifications (snd (runOf c evs))
             = flat_map (@terminalStatus Time) evs).
  { induction evs as [|event evs IH]; intros c; [ reflexivity | ].
    rewrite run_cons. cbn [snd flat_map].
    now rewrite terminalNotifications_app, step_terminal, IH. }
  split; [ apply H | ].
  rewrite !H, flat_map_app. reflexivity.
Qed.

End SessionProperties.

(** C6 as stated fails: after an explicit disconnect that makes the transport
    fire its close callback, "disconnected" has been notified twice. *)
Lemma disconnect_then_close_notifies_twice :
  let effects :=
    snd (Live.run Live.Qlt_bool Qplus Live.Qduration Base64.atob
           (Live.newLiveClient 0%Q)
           [Live.ConnectCalled Q; Live.SessionResolved Q; Live.OnOpen Q;
            Live.Disconnect Q; Live.OnClose Q]) in
  Live.terminalNotifications effects = [Live.disconnected; Live.disconnected] /\
  List.length (Live.terminalNotifications effects) <> 1%nat.
Proof. cbv zeta. split; [ reflexivity | discriminate ]. Qed.

(** ** Playback scheduling *)

Section PlaybackProperties.
Import Live.
Variable Time : Type.
Variable lt : Time -> Time -> bool.
Variable add : Time -> Time -> Time.
Variable duration : nat -> Time.
Variable atob : string -> option string.

(** The clock's comparison is a strict total order, and adding the duration of
    a buffer does not move a time backwards.  Both hold of the platform's
    numbers (no clock value is NaN), rounding included. *)
Hypothesis lt_irrefl : forall a, lt a a = false.
Hypothesis lt_asym : forall a b, lt a b = true -> lt b a = false.
Hypothesis notAfter_trans :
  forall a b c, notAfter lt a b -> notAfter lt b c -> notAfter lt a c.
Hypothesis duration_forward : forall a n, notAfter lt a (add a (duration n)).

Local Notation "'stepOf'" := (step lt add duration atob).
Local Notation "'runOf'" := (run lt add duration atob).
Local Notation "'play'" := (playAudio lt add duration atob).
Local Notation "'finishOf'" := (finish add duration).
Local Notation "a '<<=' b" := (notAfter lt a b) (at level 70).

Lemma elements16_length (bs : list Z) :
  List.length (Buffer.elements16 bs) = Nat.div2 (List.length bs).
Proof.
  assert (H : forall n (l : list Z), (List.length l <= n)%nat ->
                List.length (Buffer.elements16 l) = Nat.div2 (List.length l)).
  { induction n as [|n IH]; intros l Hl.
    - destruct l; [ reflexivity | simpl in Hl; lia ].
    - destruct l as [|lo [|hi l]]; try reflexivity.
      cbn [Buffer.elements16 List.length Nat.div2]. f_equal.
      apply IH. simpl in Hl. lia. }
  apply (H (List.length bs)). lia.
Qed.

Lemma playAudio_scheduled (client client' : LiveClient Time) (base64 : string)
    (currentTime : Time) (source : Scheduled Time) :
  play client base64 currentTime = inr (Some (client', source)) ->
  when source = later lt (nextStartTime client) currentTime /\
  nextStartTime client' = finishOf source.
Proof.
  unfold playAudio.
  destruct (negb (outputContext client)); [ discriminate | ].
  destruct (atob base64) as [binaryString|]; [ | discriminate ].
  destruct (Buffer.newInt16Array _) as [e|int16]; [ discriminate | ].
  destruct (Buffer.length16 int16 =? 0)%nat; [ discriminate | ].
  cbv zeta. intros H. injection H as <- <-.
  unfold finish, frames, later.
  cbn [when samples nextStartTime].
  unfold Pcm.channelData. rewrite length_map, elements16_length.
  split; reflexivity.
Qed.

Lemma later_cursor (cursor currentTime : Time) :
  cursor <<= later lt cursor currentTime.
Proof.
  unfold later, notAfter. destruct (lt cursor currentTime) eqn:E.
  - now apply lt_asym.
  - apply lt_irrefl.
Qed.

(** One event never moves the cursor backwards; it starts at most one source,
    which begins at or after the old cursor and ends at the new one. *)
Lemma step_cursor (client : LiveClient Time) (event : Event Time) :
  nextStartTime client <<= nextStartTime (fst (stepOf client event)) /\
  (started (snd (stepOf client event)) = [] \/
   exists s, started (snd (stepOf client event)) = [s] /\
             nextStartTime client <<= when s /\
             nextStartTime (fst (stepOf client event)) = finishOf s).
Proof.
  assert (Hsame : nextStartTime client <<= nextStartTime client) by apply lt_irrefl.
  destruct event as [ | | | | |audioData currentTime| | | ];
    try (split; [ exact Hsame | left; reflexivity ]).
  - cbn [step]. destruct (inputContext client); cbn [fst snd nextStartTime];
      (split; [ exact Hsame | left; reflexivity ]).
  - cbn [step]. destruct audioData as [base64|];
      [ | split; [ exact Hsame | left; reflexivity ] ].
    destruct (Js.truthy base64); [ | split; [ exact Hsame | left; reflexivity ] ].
    destruct (play client base64 currentTime) as [e|[[client' source]|]] eqn:E;
      try (split; [ exact Hsame | left; reflexivity ]).
    destruct (playAudio_scheduled _ _ _ E) as [Hwhen Hnext].
    cbn [fst snd started flat_map List.app].
    assert (Hstart : nextStartTime client <<= when source)
      by (rewrite Hwhen; apply later_cursor).
    split.
    + rewrite Hnext. apply notAfter_trans with (when source); [ exact Hstart | ].
      apply duration_forward.
    + right. exists source. repeat split; assumption.
  - split; [ exact Hsame | left ].
    cbn [step snd].
    destruct (session client), (inputSource client), (processor client),
      (inputContext client), (outputContext client); reflexivity.
Qed.

Lemma run_cursor (events : list (Event Time)) :
  forall client : LiveClient Time,
    Forall (fun s => nextStartTime client <<= when s)
      (started (snd (runOf client events))).
Proof.
  induction events as [|event events IH]; intros client; [ constructor | ].
  rewrite run_cons. cbn [snd]. rewrite started_app.
  destruct (step_cursor client event) as [Hmove Hstarted].
  assert (Hrest : Forall (fun s => nextStartTime client <<= when s)
                    (started (snd (runOf (fst (stepOf client event)) events)))).
  { eapply Forall_impl; [ | apply IH ]. intros s H.
    eapply notAfter_trans; [ exact Hmove | exact H ]. }
  destruct Hstarted as [->|(s & -> & Hs & _)]; [ exact Hrest | ].
  constructor; assumption.
Qed.

Lemma run_no_overlap (events : list (Event Time)) :
  forall client : LiveClient Time,
    ForallOrdPairs (fun s1 s2 => finishOf s1 <<= when s2)
      (started (snd (runOf client events))).
Proof.
  induction events as [|event events IH]; intros client; [ constructor | ].
  rewrite run_cons. cbn [snd]. rewrite started_app.
  destruct (step_cursor client event) as [_ [->|(s & -> & _ & Hs)]];
    [ apply IH | ].
  cbn [List.app]. constructor; [ | apply IH ].
  rewrite <- Hs. apply run_cursor.
Qed.

(** A playable payload is decoded, turned into a buffer of half as many
    frames as it has bytes, and started. *)
Lemma playAudio_playable (client : LiveClient Time) (base64 decoded : string)
    (currentTime : Time) :
  outputContext client = true ->
  atob base64 = Some decoded ->
  Nat.even (String.length decoded) = true ->
  String.length decoded <> 0%nat ->
  exists client' source,
    play client base64 currentTime = inr (Some (client', source)) /\
    frames source = Nat.div2 (String.length decoded) /\
    outputContext client' = true.
Proof.
  intros Hctx Hdec Heven Hpos.
  unfold playAudio. rewrite Hctx, Hdec. cbn [negb].
  unfold Buffer.newInt16Array. rewrite bytes_of_binary_string_length, Heven.
  unfold Buffer.length16. cbn [Buffer.view_buffer].
  rewrite bytes_of_binary_string_length.
  destruct (Nat.div2 (String.length decoded) =? 0)%nat eqn:Hz.
  - apply Nat.eqb_eq in Hz. exfalso.
    destruct (String.length decoded) as [|[|n]]; try congruence; discriminate.
  - cbv zeta. do 2 eexists. split; [ reflexivity | split ].
    + unfold frames, Pcm.channelData. cbn [samples Buffer.view_buffer].
      rewrite length_map, elements16_length.
      now rewrite bytes_of_binary_string_length.
    + reflexivity.
Qed.

(** The message callback on a playable message: one source is started, at the
    later of the cursor and the clock, and the cursor moves to its end. *)
Lemma step_playable (client : LiveClient Time) (audioData : option string)
    (currentTime : Time) :
  Playback.playable atob (outputContext client) audioData ->
  exists client' source decoded,
    option_map atob audioData = Some (Some decoded) /\
    stepOf client (OnMessage audioData currentTime) = (client', [Start source]) /\
    when source = later lt (nextStartTime client) currentTime /\
    frames source = Nat.div2 (String.length decoded) /\
    nextStartTime client' = finishOf source /\
    outputContext client' = true.
Proof.
  intros (Hctx & base64 & decoded & -> & Hne & Hdec & Heven & Hpos).
  destruct (@playAudio_playable client base64 decoded currentTime Hctx Hdec Heven Hpos)
    as (client' & source & Hplay & Hframes & Hctx').
  destruct (playAudio_scheduled _ _ _ Hplay) as [Hwhen Hnext].
  exists client', source, decoded.
  cbn [option_map step]. rewrite Hdec.
  assert (Ht : Js.truthy base64 = true)
    by (destruct base64; [ congruence | reflexivity ]).
  rewrite Ht, Hplay. repeat split; assumption.
Qed.

(** C7.  Every inbound buffer that reaches a client with an output context
    (a non-empty payload that decodes to a positive, even number of bytes) is
    started, at the later of the cursor and the playback clock's current
    time, and the cursor then moves to that start plus the buffer's duration;
    so, over any life of a client, a buffer scheduled later never starts
    before an earlier one has ended; and of two buffers arriving one after
    the other, the second no later than the end of the first, both are
    started and the second starts exactly at the end of the first. *)
Theorem playback_schedule (client : LiveClient Time) (events : list (Event Time)) :
  (forall audioData currentTime,
     Playback.playable atob (outputContext client) audioData ->
     exists client' source decoded,
       option_map atob audioData = Some (Some decoded) /\
       stepOf client (OnMessage audioData currentTime) = (client', [Start source]) /\
       when source = later lt (nextStartTime client) currentTime /\
       frames source = Nat.div2 (String.length decoded) /\
       nextStartTime client' = add (when source) (duration (frames source)) /\
       outputContext client' = true) /\
  (forall c c' base64 currentTime source,
     play c base64 currentTime = inr (Some (c', source)) ->
     when source = later lt (nextStartTime c) currentTime /\
     nextStartTime c' = finishOf source) /\
  ForallOrdPairs (fun s1 s2 => finishOf s1 <<= when s2)
    (started (snd (runOf client events))) /\
  (forall c c1 c2 b1 b2 t1 t2 s1 s2,
     play c b1 t1 = inr (Some (c1, s1)) ->
     play c1 b2 t2 = inr (Some (c2, s2)) ->
     t2 <<= finishOf s1 ->
     when s2 = finishOf s1) /\
  (forall first second t1 t2 decoded,
     Playback.playable atob (outputContext client) first ->
     Playback.playable atob (outputContext client) second ->
     option_map atob first = Some (Some decoded) ->
     t2 <<= add (later lt (nextStartTime client) t1)
              (duration (Nat.div2 (String.length decoded))) ->
     exists s1 s2,
       started (snd (runOf client [OnMessage first t1; OnMessage second t2]))
       = [s1; s2] /\
       when s1 = later lt (nextStartTime client) t1 /\
       frames s1 = Nat.div2 (String.length decoded) /\
       when s2 = add (when s1) (duration (frames s1))).
Proof.
  split; [ | split; [ | split; [ | split ] ] ].
  - intros audioData currentTime Hplayable.
    destruct (@step_playable client audioData currentTime Hplayable)
      as (client' & source & decoded & H).
    exists client', source, decoded. exact H.
  - intros c c' base64 currentTime source H.
    now apply (playAudio_scheduled _ _ _ H).
  - apply run_no_overlap.
  - intros c c1 c2 b1 b2 t1 t2 s1 s2 H1 H2 Hearly.
    destruct (playAudio_scheduled _ _ _ H1) as [_ Hc1].
    destruct (playAudio_scheduled _ _ _ H2) as [Hs2 _].
    rewrite Hs2, Hc1. unfold later.
    unfold notAfter in Hearly. now rewrite Hearly.
  - intros first second t1 t2 decoded Hfirst Hsecond Hdecoded Hearly.
    destruct (@step_playable client first t1 Hfirst)
      as (c1 & s1 & d1 & Hd1 & Hstep1 & Hwhen1 & Hframes1 & Hnext1 & Hctx1).
    assert (d1 = decoded) as -> by congruence.
    destruct Hfirst as [Hctx _]. rewrite Hctx, <- Hctx1 in Hsecond.
    destruct (@step_playable c1 second t2 Hsecond)
      as (c2 & s2 & d2 & _ & Hstep2 & Hwhen2 & _).
    exists s1, s2.
    cbn [run]. rewrite Hstep1, Hstep2. cbn [snd started flat_map List.app].
    repeat split; try assumption.
    rewrite Hwhen2, Hnext1. unfold finish, later.
    rewrite Hwhen1, Hframes1.
    unfold notAfter in Hearly. now rewrite Hearly.
Qed.

End PlaybackProperties.

(** The rational clock meets the assumptions on the playback clock. *)

Lemma Qlt_bool_false_iff (a b : Q) : Live.Qlt_bool a b = false <-> (b <= a)%Q.
Proof.
  unfold Live.Qlt_bool. rewrite negb_false_iff. apply Qle_bool_iff.
Qed.

Lemma Qclock_irrefl (a : Q) : Live.Qlt_bool a a = false.
Proof. apply Qlt_bool_false_iff, Qle_refl. Qed.

Lemma Qclock_asym (a b : Q) : Live.Qlt_bool a b = true -> Live.Qlt_bool b a = false.
Proof.
  intros H. apply Qlt_bool_false_iff.
  destruct (Qlt_le_dec a b) as [Hlt|Hle]; [ now apply Qlt_le_weak | ].
  apply Qlt_bool_false_iff in Hle. congruence.
Qed.

Lemma Qclock_trans (a b c : Q) :
  Live.notAfter Live.Qlt_bool a b -> Live.notAfter Live.Qlt_bool b c ->
  Live.notAfter Live.Qlt_bool a c.
Proof.
  unfold Live.notAfter. rewrite !Qlt_bool_false_iff. apply Qle_trans.
Qed.

Lemma Qclock_forward (a : Q) (n : nat) :
  Live.notAfter Live.Qlt_bool a (a + Live.Qduration n).
Proof.
  unfold Live.notAfter. rewrite Qlt_bool_false_iff.
  rewrite <- (Qplus_0_r a) at 1. apply Qplus_le_r.
  unfold Live.Qduration, Qle. simpl. lia.
Qed.

(** Two buffers of two frames each arrive at clock time 1, one right after
    the other: both are started, the first at 1 and the second where the
    first ends. *)
Lemma playback_schedule_witness :
  let client :=
    fst (Live.run Live.Qlt_bool Qplus Live.Qduration Base64.atob
           (Live.newLiveClient 0%Q) [Live.ConnectCalled Q]) in
  let events := [Live.OnMessage (Some "AAABAA=="%string) 1%Q;
                 Live.OnMessage (Some "AgADAA=="%string) 1%Q] in
  exists s1 s2,
    Live.started
      (snd (Live.run Live.Qlt_bool Qplus Live.Qduration Base64.atob client events))
    = [s1; s2] /\
    Live.when s1 = 1%Q /\
    Live.frames s1 = 2%nat /\
    Live.when s2 = (1 + Live.Qduration 2)%Q.
Proof.
  cbv zeta.
  assert (Hfirst : Playback.playable Base64.atob true (Some "AAABAA=="%string)).
  { split; [ reflexivity | ]. do 2 eexists.
    split; [ reflexivity | split; [ discriminate | ] ].
    split; [ vm_compute; reflexivity | split; [ reflexivity | discriminate ] ]. }
  assert (Hsecond : Playback.playable Base64.atob true (Some "AgADAA=="%string)).
  { split; [ reflexivity | ]. do 2 eexists.
    split; [ reflexivity | split; [ discriminate | ] ].
    split; [ vm_compute; reflexivity | split; [ reflexivity | discriminate ] ]. }
  destruct (proj2 (proj2 (proj2 (proj2
              (@playback_schedule Q Live.Qlt_bool Qplus Live.Qduration Base64.atob
                 Qclock_irrefl Qclock_asym Qclock_trans Qclock_forward
                 (fst (Live.run Live.Qlt_bool Qplus Live.Qduration Base64.atob
                         (Live.newLiveClient 0%Q) [Live.ConnectCalled Q]))
                 []))))
              (Some "AAABAA=="%string) (Some "AgADAA=="%string) 1%Q 1%Q
              (String "000" (String "000" (String "001" (String "000" ""))))
              Hfirst Hsecond)
    as (s1 & s2 & Hrun & Hwhen1 & Hframes1 & Hwhen2).
  - vm_compute. reflexivity.
  - vm_compute. reflexivity.
  - exists s1, s2.
    split; [ exact Hrun | ].
    split; [ exact Hwhen1 | ].
    split; [ exact Hframes1 | ].
    rewrite Hwhen2, Hwhen1, Hframes1. reflexivity.
Defined.

Example two_buffers_back_to_back :
  map (@Live.when Q)
    (Live.started
       (snd (Live.run Live.Qlt_bool Qplus Live.Qduration Base64.atob
               (Live.newLiveClient 0%Q)
               [Live.ConnectCalled Q;
                Live.OnMessage (Some "AAABAA=="%string) 1%Q;
                Live.OnMessage (Some "AgADAA=="%string) 1%Q])))
  = [1%Q; (1 + Live.Qduration 2)%Q].
Proof. reflexivity. Qed.

(* ================================================================== *)
(** * Part III: further properties of the service and of its callers *)
(* ================================================================== *)

(** ** The WAV writer, on every input *)

Section WavOutcomes.
Import Buffer Wav.
Local Open Scope Z_scope.

Lemma le_bytes_range (n : nat) (v : Z) :
  Forall (fun b => 0 <= b < 256) (le_bytes n v).
Proof.
  revert v; induction n as [|n IH]; intros v; cbn [le_bytes]; constructor.
  - apply Z.mod_pos_bound. lia.
  - apply IH.
Qed.

Lemma wav_header_range (n rate : Z) :
  Forall (fun b => 0 <= b < 256) (wav_header n rate).
Proof.
  unfold wav_header.
  repeat (apply Forall_app; split);
    try apply le_bytes_range;
    repeat (constructor; [ lia | ]); constructor.
Qed.

Lemma wav_header_length (n rate : Z) : List.length (wav_header n rate) = 44%nat.
Proof. reflexivity. Qed.

Lemma base64PCMToWav_invalid (atob : string -> option string)
    (base64Pcm : string) (sampleRate : Z) :
  atob base64Pcm = None ->
  base64PCMToWav atob base64Pcm sampleRate = inl Js.InvalidCharacterError.
Proof. intros H. unfold base64PCMToWav. now rewrite H. Qed.

Lemma base64PCMToWav_odd (atob : string -> option string)
    (base64Pcm s : string) (sampleRate : Z) :
  atob base64Pcm = Some s -> Nat.even (String.length s) = false ->
  base64PCMToWav atob base64Pcm sampleRate = inl Js.RangeError.
Proof.
  intros H Hodd. unfold base64PCMToWav, newInt16Array.
  now rewrite H, bytes_of_binary_string_length, Hodd.
Qed.

(** X1.  [base64PCMToWav] fails with InvalidCharacterError when the input is
    not base64, with RangeError when it decodes to an odd number of bytes, and
    in every other case returns an audio/wav blob of 44 bytes more than the
    payload: the header writes never leave the header buffer. *)
Theorem base64PCMToWav_outcome (atob : string -> option string)
    (base64Pcm : string) (sampleRate : Z) :
  (atob base64Pcm = None ->
   base64PCMToWav atob base64Pcm sampleRate = inl Js.InvalidCharacterError) /\
  (forall s, atob base64Pcm = Some s -> Nat.even (String.length s) = false ->
   base64PCMToWav atob base64Pcm sampleRate = inl Js.RangeError) /\
  (forall s, atob base64Pcm = Some s -> Nat.even (String.length s) = true ->
   exists blob,
     base64PCMToWav atob base64Pcm sampleRate = inr blob /\
     blob_type blob = "audio/wav"%string /\
     List.length (blob_bytes blob) = (44 + String.length s)%nat).
Proof.
  split; [ | split ].
  - apply base64PCMToWav_invalid.
  - intros s. apply base64PCMToWav_odd.
  - intros s H Heven. eexists.
    split; [ exact (base64PCMToWav_blob atob _ sampleRate H Heven) | ].
    cbn [blob_type blob_bytes]. split; [ reflexivity | ].
    now rewrite length_app, wav_header_length, length_map, chars_length.
Qed.

(** Three bytes are not a whole number of samples. *)
Lemma base64PCMToWav_outcome_witness :
  base64PCMToWav Base64.atob "AQID" 24000 = inl Js.RangeError.
Proof.
  apply (proj1 (proj2 (@base64PCMToWav_outcome Base64.atob "AQID" 24000))
           (String "001" (String "002" (String "003" ""))));
    reflexivity.
Defined.

(** X2.  Whatever the integer sample rate, negative or beyond 32 bits, and
    whatever the payload length, every byte of the blob is in [0, 255], and
    the size, rate and byte-rate fields hold their values modulo 2^32; the
    RIFF size is always the data size plus 36, modulo 2^32. *)
Theorem base64PCMToWav_fields_modulo (atob : string -> option string)
    (base64Pcm s : string) (sampleRate : Z) :
  atob base64Pcm = Some s ->
  Nat.even (String.length s) = true ->
  exists blob,
    base64PCMToWav atob base64Pcm sampleRate = inr blob /\
    Forall (fun b => 0 <= b < 256) (blob_bytes blob) /\
    getUint32 24 (blob_bytes blob) = sampleRate mod 2 ^ 32 /\
    getUint32 28 (blob_bytes blob) = (sampleRate * 2) mod 2 ^ 32 /\
    getUint32 40 (blob_bytes blob) = Z.of_nat (String.length s) mod 2 ^ 32 /\
    getUint32 4 (blob_bytes blob) = (getUint32 40 (blob_bytes blob) + 36) mod 2 ^ 32.
Proof.
  intros H Heven. eexists.
  split; [ exact (base64PCMToWav_blob atob _ sampleRate H Heven) | ].
  cbn [blob_bytes].
  destruct (wav_header_fields (Z.of_nat (String.length s)) sampleRate
              (map Js.charCodeAt (Js.chars s)))
    as (_ & _ & H2 & _ & _ & H5 & H6 & _ & _ & H9 & _).
  split; [ | repeat split; try assumption ].
  - apply Forall_app. split; [ apply wav_header_range | ].
    apply Forall_forall. intros b Hb. apply in_map_iff in Hb.
    destruct Hb as (c & <- & _). apply charCodeAt_range.
  - rewrite H2, H9. rewrite Z.add_mod_idemp_l by lia. f_equal. lia.
Qed.

(** A negative rate is stored in two's complement. *)
Lemma base64PCMToWav_fields_modulo_witness :
  exists blob,
    base64PCMToWav Base64.atob "AQAC/w==" (-1) = inr blob /\
    getUint32 24 (blob_bytes blob) = 4294967295.
Proof.
  destruct (@base64PCMToWav_fields_modulo Base64.atob "AQAC/w=="
              (String "001" (String "000" (String "002" (String "255" ""))))
              (-1) eq_refl eq_refl)
    as (blob & Hblob & _ & Hrate & _).
  exists blob. split; [ exact Hblob | exact Hrate ].
Defined.

End WavOutcomes.

(** ** The error normalizer, again *)

Section ErrorAlgebra.
Import Errors.
Local Open Scope string_scope.

Lemma mapError_cases (error : RawError) :
  mapError error = Error "Rate limit exceeded. Try again later." \/
  mapError error = Error "Content blocked by safety settings." \/
  (mapError error = Error (Js.or_else (message error) "An unexpected error occurred.") /\
   Js.includes (Js.or_else (option_map Js.toLowerCase (message error)) "") "429" = false /\
   Js.includes (Js.or_else (option_map Js.toLowerCase (message error)) "") "exhausted" = false /\
   Js.includes (Js.or_else (option_map Js.toLowerCase (message error)) "") "safety" = false).
Proof.
  unfold mapError. cbv zeta.
  destruct (Js.includes _ "429"); [ now left | ].
  destruct (Js.includes _ "exhausted"); [ now left | ].
  destruct (Js.includes _ "safety"); [ now right; left | ].
  right; right. cbn [orb]. repeat split.
Qed.

(** X3.  Normalizing an error that is already normalized changes nothing. *)
Theorem mapError_idempotent (error : RawError) :
  mapError (mapError error) = mapError error.
Proof.
  destruct (mapError_cases error) as [H|[H|(H & H1 & H2 & H3)]];
    rewrite H; try reflexivity.
  destruct (message error) as [m|] eqn:Hm; cbn [Js.or_else].
  - destruct (Js.truthy m) eqn:Ht; [ | reflexivity ].
    unfold mapError. cbv zeta. cbn [message Error option_map] in *.
    rewrite H1, H2, H3. cbn [orb Js.or_else]. now rewrite Ht.
  - reflexivity.
Qed.

(** X4.  The normalized error always carries a message, and it is never the
    empty string: there is always something to show to the user. *)
Theorem mapError_message (error : RawError) :
  exists m, mapError error = Error m /\ m <> "".
Proof.
  destruct (mapError_cases error) as [H|[H|(H & _)]]; rewrite H.
  - eexists. split; [ reflexivity | discriminate ].
  - eexists. split; [ reflexivity | discriminate ].
  - eexists. split; [ reflexivity | ].
    destruct (message error) as [[|c m]|]; cbn; discriminate.
Qed.

End ErrorAlgebra.

(** ** Speech, image and title generation *)

Section OneshotProperties.
Import Oneshot.
Local Open Scope string_scope.
Variable generateContent : Request -> Errors.RawError + Response.
Variable atob : string -> option string.
Variable raised : Js.Exn -> Errors.RawError.
Variable trim : string -> string.

Local Notation "'speech'" := (generateSpeech generateContent atob raised).
Local Notation "'image'" := (generateImage generateContent).
Local Notation "'chatTitle'" := (generateChatTitle generateContent trim).

(** X5.  When the first part of the first candidate carries inline audio
    that decodes to an even number of bytes below 2^32 - 36, [generateSpeech]
    returns an audio/wav blob whose header declares one channel, 16 bits per
    sample, 24000 Hz and 48000 bytes per second, followed by the decoded
    bytes unchanged. *)
Theorem generateSpeech_wav (text audio decoded : string) (response : Response)
    (part : Part) (rest : list Part) (d : InlineData) :
  generateContent (speechRequest text) = inr response ->
  firstParts response = Some (part :: rest) ->
  inlineData part = Some d ->
  data d = Some audio ->
  audio <> "" ->
  atob audio = Some decoded ->
  Nat.even (String.length decoded) = true ->
  (Z.of_nat (String.length decoded) < 2 ^ 32 - 36)%Z ->
  exists blob,
    speech text = Errors.Returned blob /\
    Wav.blob_type blob = "audio/wav" /\
    Wav.canonical_container (map Js.charCodeAt (Js.chars decoded)) 24000
      (Wav.blob_bytes blob).
Proof.
  intros Hresp Hparts Hinline Hdata Hne Hdec Heven Hlen.
  unfold generateSpeech. rewrite Hresp, Hparts, Hinline, Hdata.
  assert (Ht : Js.truthy audio = true) by (destruct audio; [ congruence | reflexivity ]).
  rewrite Ht, (base64PCMToWav_blob atob audio 24000 Hdec Heven).
  eexists. split; [ reflexivity | ]. cbn [Wav.blob_type Wav.blob_bytes].
  split; [ reflexivity | ].
  set (n := Z.of_nat (String.length decoded)) in *.
  set (payload := map Js.charCodeAt (Js.chars decoded)).
  assert (Hn : Z.of_nat (List.length payload) = n).
  { unfold payload, n. now rewrite length_map, chars_length. }
  destruct (wav_header_fields n 24000 payload)
    as (H0 & H1 & H2 & H3 & H4 & H5 & H6 & H7 & H8 & H9 & _).
  unfold Wav.canonical_container. rewrite Hn.
  rewrite Z.mod_small in H2, H9 by lia.
  repeat split; assumption.
Qed.

(** X6.  [generateSpeech] returns a blob only in that case: it throws the
    normalized backend error when the call fails, "No audio generated" when
    the first part of the first candidate has no (non-empty) inline data,
    even if a later part has, and the normalized platform error when the data
    is not base64 or decodes to an odd number of bytes. *)
Theorem generateSpeech_failures (text : string) :
  (forall error, generateContent (speechRequest text) = inl error ->
   speech text = Errors.Thrown (Errors.mapError error)) /\
  (forall response,
     generateContent (speechRequest text) = inr response ->
     (forall part rest d audio,
        firstParts response = Some (part :: rest) -> inlineData part = Some d ->
        data d = Some audio -> audio = "") ->
     speech text = Errors.Thrown (Errors.Error "No audio generated")) /\
  (forall response part rest d audio,
     generateContent (speechRequest text) = inr response ->
     firstParts response = Some (part :: rest) -> inlineData part = Some d ->
     data d = Some audio -> audio <> "" ->
     (atob audio = None ->
      speech text = Errors.Thrown (Errors.mapError (raised Js.InvalidCharacterError))) /\
     (forall decoded, atob audio = Some decoded ->
        Nat.even (String.length decoded) = false ->
        speech text = Errors.Thrown (Errors.mapError (raised Js.RangeError)))).
Proof.
  split; [ | split ].
  - intros error H. unfold generateSpeech. now rewrite H.
  - intros response H Hnone. unfold generateSpeech. rewrite H.
    destruct (firstParts response) as [[|part rest]|] eqn:Hparts; try reflexivity.
    destruct (inlineData part) as [d|] eqn:Hinline; [ | reflexivity ].
    destruct (data d) as [audio|] eqn:Hdata; [ | reflexivity ].
    rewrite (Hnone part rest d audio eq_refl Hinline Hdata). reflexivity.
  - intros response part rest d audio H Hparts Hinline Hdata Hne.
    assert (Ht : Js.truthy audio = true)
      by (destruct audio; [ congruence | reflexivity ]).
    unfold generateSpeech. rewrite H, Hparts, Hinline, Hdata, Ht.
    split.
    + intros Hdec. now rewrite (base64PCMToWav_invalid atob audio 24000 Hdec).
    + intros decoded Hdec Hodd.
      now rewrite (base64PCMToWav_odd atob audio 24000 Hdec Hodd).
Qed.

Lemma find_first_inline (before after : list Part) (part : Part) (d : InlineData) :
  Forall (fun p => inlineData p = None) before ->
  inlineData part = Some d ->
  find (fun p => match inlineData p with Some _ => true | None => false end)
    (before ++ part :: after)%list = Some part.
Proof.
  intros Hbefore Hpart. induction Hbefore as [|p l Hp _ IH]; cbn [List.app find].
  - now rewrite Hpart.
  - now rewrite Hp.
Qed.

Lemma find_no_inline (ps : list Part) :
  Forall (fun p => inlineData p = None) ps ->
  find (fun p => match inlineData p with Some _ => true | None => false end) ps = None.
Proof.
  intros H. induction H as [|p l Hp _ IH]; cbn [find]; [ reflexivity | ].
  now rewrite Hp.
Qed.

(** X7.  [generateImage] returns the data URL of the first part of the first
    candidate that carries inline data, whatever text parts precede it and
    whatever follows, on the edit pathway and on the generation pathway
    alike. *)
Theorem generateImage_first_inline (prompt : string) (config : Types.GenerationConfig)
    (attachment : option Types.Attachment) (response : Response)
    (before after : list Part) (part : Part) (d : InlineData) :
  generateContent (requestOf prompt config attachment) = inr response ->
  firstParts response = Some (before ++ part :: after)%list ->
  Forall (fun p => inlineData p = None) before ->
  inlineData part = Some d ->
  image prompt config attachment = Errors.Returned (dataUrl d).
Proof.
  intros Hresp Hparts Hbefore Hpart.
  unfold generateImage, findInline.
  destruct attachment as [att|]; cbn [requestOf] in Hresp;
    rewrite Hresp, Hparts, (@find_first_inline before after part d Hbefore Hpart), Hpart;
    reflexivity.
Qed.

(** X8.  [generateImage] throws in every other case: the normalized backend
    error when the call fails, and, when no part of the first candidate
    carries inline data (or there is no candidate), "No image returned from
    edit." with an attachment and "No image generated." without. *)
Theorem generateImage_failures (prompt : string) (config : Types.GenerationConfig)
    (attachment : option Types.Attachment) :
  (forall error,
     generateContent (requestOf prompt config attachment) = inl error ->
     image prompt config attachment = Errors.Thrown (Errors.mapError error)) /\
  (forall response,
     generateContent (requestOf prompt config attachment) = inr response ->
     (firstParts response = None \/
      exists ps, firstParts response = Some ps /\
                 Forall (fun p => inlineData p = None) ps) ->
     image prompt config attachment
     = Errors.Thrown (Errors.Error (match attachment with
                                    | Some _ => "No image returned from edit."
                                    | None => "No image generated."
                                    end))).
Proof.
  split.
  - intros error H. unfold generateImage.
    destruct attachment; cbn [requestOf] in H; now rewrite H.
  - intros response H Hnone.
    assert (Hfind : findInline response = None).
    { unfold findInline. destruct Hnone as [->|(ps & -> & Hps)]; [ reflexivity | ].
      now rewrite (@find_no_inline ps Hps). }
    unfold generateImage.
    destruct attachment; cbn [requestOf] in H; rewrite H, Hfind; reflexivity.
Qed.

(** X10.  [generateChatTitle] never fails and never returns the empty
    string: the title is "New Chat" when the call fails, when the response
    has no text or when the text trims to nothing, and the trimmed text
    otherwise. *)
Theorem generateChatTitle_total (firstMessage : string) :
  chatTitle firstMessage <> "" /\
  (forall error,
     generateContent (titleRequest firstMessage) = inl error ->
     chatTitle firstMessage = "New Chat") /\
  (forall response,
     generateContent (titleRequest firstMessage) = inr response ->
     (responseText response = None ->  chatTitle firstMessage = "New Chat") /\
     (forall t, responseText response = Some t ->
        (trim t = "" -> chatTitle firstMessage = "New Chat") /\
        (trim t <> "" -> chatTitle firstMessage = trim t))).
Proof.
  unfold generateChatTitle.
  destruct (generateContent (titleRequest firstMessage)) as [error|response].
  - split; [ discriminate | ]. split; [ reflexivity | discriminate ].
  - split; [ | split; [ discriminate | ] ].
    + destruct (responseText response) as [t|]; cbn [option_map Js.or_else];
        [ | discriminate ].
      destruct (trim t) as [|c r] eqn:Ht; cbn [Js.truthy]; discriminate.
    + intros r Hr. injection Hr as <-. split.
      * intros ->. reflexivity.
      * intros t ->. cbn [option_map Js.or_else]. split.
        -- intros ->. reflexivity.
        -- intros Hne. destruct (trim t); [ congruence | reflexivity ].
Qed.

End OneshotProperties.

(** A synthesis answer with four bytes of audio in its first part. *)
Lemma generateSpeech_wav_witness :
  let response :=
    {| Oneshot.candidates :=
         Some [ {| Oneshot.content :=
                     Some {| Oneshot.parts :=
                               Some [ {| Oneshot.text := None;
                                         Oneshot.inlineData :=
                                           Some {| Oneshot.mimeType := Some "audio/L16"%string;
                                                   Oneshot.data := Some "AQAC/w=="%string |} |} ] |} |} ];
       Oneshot.responseText := None |} in
  exists blob,
    Oneshot.generateSpeech (fun _ => inr response) Base64.atob
      (fun _ => Errors.Error "platform error") "hello"
    = Errors.Returned blob /\
    Wav.blob_type blob = "audio/wav"%string /\
    Wav.canonical_container [1; 0; 2; 255]%Z 24000 (Wav.blob_bytes blob).
Proof.
  cbv zeta.
  eapply (@generateSpeech_wav _ Base64.atob (fun _ => Errors.Error "platform error")
            "hello" "AQAC/w=="
            (String "001" (String "000" (String "002" (String "255" "")))));
    try reflexivity; try discriminate; try (vm_compute; reflexivity).
Defined.

(** An image answer that starts with a caption. *)
Lemma generateImage_first_inline_witness :
  let png := {| Oneshot.mimeType := Some "image/png"%string;
                Oneshot.data := Some "iVBORw0KGgo="%string |} in
  let response :=
    {| Oneshot.candidates :=
         Some [ {| Oneshot.content :=
                     Some {| Oneshot.parts :=
                               Some [ {| Oneshot.text := Some "Here it is"%string;
                                         Oneshot.inlineData := None |};
                                      {| Oneshot.text := None;
                                         Oneshot.inlineData := Some png |} ] |} |} ];
       Oneshot.responseText := None |} in
  Oneshot.generateImage (fun _ => inr response) "a red cube"
    {| Types.aspectRatio := None; Types.imageSize := None; Types.resolution := None |}
    None
  = Errors.Returned "data:image/png;base64,iVBORw0KGgo="%string.
Proof.
  cbv zeta.
  eapply (@generateImage_first_inline _ "a red cube" _ None _
            [ {| Oneshot.text := Some "Here it is"%string; Oneshot.inlineData := None |} ]
            [] _ {| Oneshot.mimeType := Some "image/png"%string;
                    Oneshot.data := Some "iVBORw0KGgo="%string |});
    try reflexivity; repeat constructor.
Defined.

(** ** The streaming consumer, on every stream *)

Section StreamProperties.
Import Types Chat.
Local Open Scope string_scope.

Lemma append_empty_r (s : string) : s ++ "" = s.
Proof. induction s; simpl; congruence. Qed.

Lemma concat_cons (t : string) (l : list string) :
  concat "" (t :: l) = t ++ concat "" l.
Proof. destruct l; simpl; [ now rewrite append_empty_r | reflexivity ]. Qed.

Lemma truthy_nonempty (s : string) : Js.truthy s = true <-> s <> "".
Proof. destruct s; simpl; split; congruence. Qed.

(** What the loop has done when it stops, however it stops. *)
Lemma forAwait_calls (signal : option AbortSignal) (ending : StreamEnd)
    (chunks : list Genai.Chunk) :
  forall (k : nat) (fullText : string),
    Forall (fun c => c <> "") (fst (forAwait signal k chunks ending fullText)) /\
    (exists rest,
        filter Js.truthy (map chunkText chunks)
        = (fst (forAwait signal k chunks ending fullText) ++ rest)%list) /\
    (forall t, snd (forAwait signal k chunks ending fullText) = Completed t ->
               t = fullText ++ concat "" (fst (forAwait signal k chunks ending fullText))).
Proof.
  induction chunks as [|chunk chunks IH]; intros k fullText.
  - cbn [forAwait]. destruct ending; cbn [fst snd map filter];
      (split; [ constructor | split; [ now exists [] | ] ]).
    + intros t H. injection H as <-. now rewrite append_empty_r.
    + discriminate.
  - cbn [forAwait]. destruct (aborted signal k).
    + cbn [fst snd]. split; [ constructor | split; [ eexists; reflexivity | ] ].
      intros t H. injection H as <-. now rewrite append_empty_r.
    + destruct chunk as [[t|]]; cbn [Genai.text map]; unfold chunkText at 1;
        cbn [Genai.text filter].
      * destruct (Js.truthy t) eqn:Ht.
        -- destruct (IH (S k) (fullText ++ t)) as (Hne & [rest Hrest] & Hdone).
           destruct (forAwait signal (S k) chunks ending (fullText ++ t))
             as [calls r].
           cbn [fst snd] in *. split; [ | split ].
           ++ constructor; [ now apply truthy_nonempty | exact Hne ].
           ++ exists rest. cbn [List.app]. now rewrite Hrest.
           ++ intros t' Hr. rewrite (Hdone t' Hr), concat_cons.
              now rewrite append_assoc.
        -- apply IH.
      * cbn [Js.truthy]. apply IH.
Qed.

(** X11.  Whatever the backend does and whenever the signal is aborted,
    [onChunk] is never called with an empty text, and the texts it receives
    are an initial segment of the non-empty texts of the stream, in the
    stream's order: nothing is reordered, repeated or skipped.  A rejected
    call delivers nothing. *)
Theorem streamResponse_delivery_order (ai : Genai.ChatRequest -> StreamCall)
    (history : list Message) (newMessage : string)
    (attachments : list Attachment) (mode : AppMode)
    (signal : option AbortSignal) :
  let calls := fst (streamResponse ai history newMessage attachments mode signal) in
  Forall (fun c => c <> "") calls /\
  (forall chunks ending,
     ai (chatRequest history newMessage attachments mode) = Streaming chunks ending ->
     exists rest, filter Js.truthy (map chunkText chunks) = (calls ++ rest)%list) /\
  (forall error,
     ai (chatRequest history newMessage attachments mode) = Rejected error ->
     calls = []).
Proof.
  cbv zeta. unfold streamResponse.
  destruct (ai (chatRequest history newMessage attachments mode))
    as [error0|chunks ending].
  - assert (E : forall o : Errors.Outcome string,
               fst (let (calls, r) := ([] : list string, Raised 0 error0) in
                    match r with
                    | Completed fullText => (calls, Errors.Returned fullText)
                    | Raised k error =>
                        if aborted signal k then (calls, Errors.Returned "")
                        else (calls, Errors.Thrown (Errors.mapError error))
                    end) = []).
    { intros _. destruct (aborted signal 0); reflexivity. }
    rewrite (E (Errors.Returned "")).
    split; [ constructor | split; [ discriminate | reflexivity ] ].
  - destruct (forAwait_calls signal ending chunks 0 "") as (Hne & Hrest & _).
    destruct (forAwait signal 0 chunks ending "") as [calls r].
    cbn [fst] in *.
    assert (E : fst (match r with
                     | Completed fullText => (calls, Errors.Returned fullText)
                     | Raised k error =>
                         if aborted signal k then (calls, Errors.Returned "")
                         else (calls, Errors.Thrown (Errors.mapError error))
                     end) = calls).
    { destruct r as [t|k e]; [ reflexivity | destruct (aborted signal k); reflexivity ]. }
    rewrite E. split; [ exact Hne | split; [ | discriminate ] ].
    intros chunks' ending' H. injection H as <- <-. exact Hrest.
Qed.

(** X12.  When the stream does not fail, the text returned is exactly the
    concatenation of the texts handed to [onChunk], cancelled or not; and in
    every case a returned text is either that concatenation or empty. *)
Theorem streamResponse_returns_delivered (ai : Genai.ChatRequest -> StreamCall)
    (history : list Message) (newMessage : string)
    (attachments : list Attachment) (mode : AppMode)
    (signal : option AbortSignal) :
  let result := streamResponse ai history newMessage attachments mode signal in
  (forall chunks,
     ai (chatRequest history newMessage attachments mode) = Streaming chunks Exhausted ->
     snd result = Errors.Returned (concat "" (fst result))) /\
  (forall t, snd result = Errors.Returned t ->
             t = concat "" (fst result) \/ t = "").
Proof.
  cbv zeta. unfold streamResponse.
  destruct (ai (chatRequest history newMessage attachments mode))
    as [error0|chunks ending].
  - split; [ discriminate | ].
    intros t. destruct (aborted signal 0); cbn [fst snd]; [ | discriminate ].
    intros H. injection H as <-. now right.
  - destruct (forAwait_calls signal ending chunks 0 "") as (_ & _ & Hdone).
    pose proof (forAwait_raised signal chunks ending 0 "") as Hraised.
    destruct (forAwait signal 0 chunks ending "") as [calls r].
    cbn [fst snd] in *. split.
    + intros chunks' H. injection H as <- ->.
      destruct r as [t|k e].
      * cbn [fst snd]. now rewrite (Hdone t eq_refl).
      * destruct (Hraised k e eq_refl) as [Habs _]. discriminate Habs.
    + intros t. destruct r as [t'|k e].
      * cbn [fst snd]. intros H. injection H as <-. left.
        now rewrite (Hdone t' eq_refl).
      * destruct (aborted signal k); cbn [fst snd]; [ | discriminate ].
        intros H. injection H as <-. now right.
Qed.

(** X13.  When the signal is never aborted (in particular when no signal is
    given) and the stream does not fail, the whole stream is consumed:
    [onChunk] receives every non-empty text, and the text returned is the
    concatenation of all the texts. *)
Theorem streamResponse_uncancelled (ai : Genai.ChatRequest -> StreamCall)
    (history : list Message) (newMessage : string)
    (attachments : list Attachment) (mode : AppMode)
    (signal : option AbortSignal) (chunks : list Genai.Chunk) :
  ai (chatRequest history newMessage attachments mode) = Streaming chunks Exhausted ->
  (forall k, aborted signal k = false) ->
  streamResponse ai history newMessage attachments mode signal
  = (filter Js.truthy (map chunkText chunks),
     Errors.Returned (concat "" (map chunkText chunks))).
Proof.
  intros Hcall Hclear. unfold streamResponse. rewrite Hcall.
  pose proof (@forAwait_delivered signal chunks [] Exhausted 0 ""
                (fun j _ => Hclear (0 + j)%nat)) as E.
  rewrite app_nil_r in E. rewrite E. cbn [forAwait fst snd String.append].
  now rewrite app_nil_r.
Qed.

(** No signal at all. *)
Lemma streamResponse_uncancelled_witness :
  let ai := fun _ : Genai.ChatRequest =>
    Streaming [ {| Genai.text := Some "Hel" |}; {| Genai.text := None |};
                {| Genai.text := Some "lo" |} ] Exhausted in
  streamResponse ai [] "Hi" [] chat None = (["Hel"; "lo"], Errors.Returned "Hello").
Proof.
  cbv zeta.
  apply (@streamResponse_uncancelled _ [] "Hi" [] chat None
           [ {| Genai.text := Some "Hel" |}; {| Genai.text := None |};
             {| Genai.text := Some "lo" |} ]).
  - reflexivity.
  - reflexivity.
Defined.

(** X14.  A request whose signal is already aborted at the first observation
    yields the empty text, with no call to [onChunk] and no error, whether
    the backend rejects the call, fails, or streams. *)
Theorem streamResponse_cancelled_at_start (ai : Genai.ChatRequest -> StreamCall)
    (history : list Message) (newMessage : string)
    (attachments : list Attachment) (mode : AppMode)
    (signal : option AbortSignal) :
  aborted signal 0 = true ->
  streamResponse ai history newMessage attachments mode signal
  = ([], Errors.Returned "").
Proof.
  intros H0. unfold streamResponse.
  destruct (ai (chatRequest history newMessage attachments mode))
    as [error0|[|chunk chunks] ending].
  - now rewrite H0.
  - destruct ending; cbn [forAwait]; [ reflexivity | now rewrite H0 ].
  - cbn [forAwait]. now rewrite H0.
Qed.

(** The backend rejects the call of a request cancelled at once. *)
Lemma streamResponse_cancelled_at_start_witness :
  streamResponse (fun _ => Rejected {| Errors.message := Some "503" |})
    [] "Hi" [] chat (Some (fun _ => true))
  = ([], Errors.Returned "").
Proof.
  apply (@streamResponse_cancelled_at_start
           (fun _ => Rejected {| Errors.message := Some "503" |})
           [] "Hi" [] chat (Some (fun _ => true))).
  reflexivity.
Defined.

(** *** The request *)

(** X15.  The history sent to the backend never contains a turn without
    parts, and has at most as many turns as there are messages. *)
Theorem mapMessagesToHistory_no_empty_turn (messages : list Message) :
  Forall (fun c => Genai.parts c <> []) (mapMessagesToHistory messages) /\
  (List.length (mapMessagesToHistory messages) <= List.length messages)%nat.
Proof.
  unfold mapMessagesToHistory. split.
  - apply Forall_forall. intros c Hc. apply in_map_iff in Hc.
    destruct Hc as (msg & <- & Hin). apply filter_In in Hin.
    destruct Hin as [_ Hkeep]. unfold toContent, hasAttachments in *.
    cbn [Genai.parts].
    destruct (Js.truthy (content msg)); [ discriminate | ].
    destruct (attachments msg) as [[|a atts]|]; cbn in *; discriminate.
  - rewrite length_map.
    eapply Nat.le_trans; [ apply filter_length_le | apply filter_length_le ].
Qed.

Lemma hasAudio_iff (attachments : list Attachment) :
  hasAudio attachments <->
  existsb (fun a => Js.startsWith (mimeType a) "audio/") attachments = true.
Proof.
  rewrite existsb_exists. unfold hasAudio, Js.startsWith. split.
  - intros (a & Hin & Hpre). exists a. split; [ exact Hin | now apply prefix_iff ].
  - intros (a & Hin & Hpre). exists a. split; [ exact Hin | now apply prefix_iff ].
Qed.

(** X16.  In every mode other than thinking, fast and maps (image, video,
    tts and live included) the request is the one of chat mode; its model is
    the audio model exactly when some attachment's MIME type starts with
    "audio/", and the chat model otherwise, whatever else is attached. *)
Theorem default_modes_profile (history : list Message) (newMessage : string)
    (attachments : list Attachment) (mode : AppMode) :
  mode <> thinking -> mode <> fast -> mode <> maps ->
  chatRequest history newMessage attachments mode
  = chatRequest history newMessage attachments chat /\
  (hasAudio attachments ->
   Genai.model (chatRequest history newMessage attachments mode) = AUDIO_MODEL) /\
  (~ hasAudio attachments ->
   Genai.model (chatRequest history newMessage attachments mode) = CHAT_MODEL) /\
  Genai.config (chatRequest history newMessage attachments mode) = baseConfig.
Proof.
  intros H1 H2 H3.
  assert (E : determineModelAndConfig mode attachments
              = determineModelAndConfig chat attachments)
    by (destruct mode; try reflexivity; congruence).
  unfold chatRequest. rewrite E. split; [ reflexivity | ].
  pose proof (hasAudio_iff attachments) as Ha.
  unfold determineModelAndConfig.
  destruct attachments as [|a atts].
  - cbn. repeat split; try reflexivity.
    intros (x & [] & _).
  - cbn [List.length Nat.ltb Nat.leb].
    destruct (existsb _ (a :: atts)); cbn [Genai.model Genai.config];
      repeat split; try reflexivity; intros H.
    + exfalso. apply H. now apply Ha.
    + apply Ha in H. discriminate H.
Qed.

(** A picture sent in live mode goes to the chat model. *)
Lemma default_modes_profile_witness :
  Genai.model
    (chatRequest [] "What is this?"
       [ {| mimeType := "image/png"; data := "iVBORw0KGgo="; name := None |} ] live)
  = CHAT_MODEL.
Proof.
  refine (proj1 (proj2 (proj2 (@default_modes_profile [] "What is this?"
            [ {| mimeType := "image/png"; data := "iVBORw0KGgo="; name := None |} ]
            live _ _ _))) _); try discriminate.
  intros (a & [<-|[]] & rest & Hmime). discriminate Hmime.
Defined.

End StreamProperties.

(** ** The video poller, on every script of answers *)

Section VideoTraces.
Import Video.
Local Open Scope string_scope.

Lemma pollLoop_shape (answers : list (Errors.RawError + Operation)) :
  forall operation : Operation,
    exists operations,
      fst (pollLoop operation answers)
      = flat_map (fun o => [Wait 5000; GetVideosOperation o]) operations /\
      (List.length operations <= S (List.length answers))%nat.
Proof.
  induction answers as [|answer answers IH]; intros operation.
  - cbn [pollLoop]. destruct (Chat.flag (done operation)).
    + exists []. split; [ reflexivity | cbn; lia ].
    + exists [operation]. split; [ reflexivity | cbn; lia ].
  - cbn [pollLoop]. destruct (Chat.flag (done operation)).
    + exists []. split; [ reflexivity | cbn; lia ].
    + destruct answer as [error|operation'].
      * exists [operation]. split; [ reflexivity | cbn; lia ].
      * destruct (IH operation') as (ops & Hops & Hlen).
        destruct (pollLoop operation' answers) as [effects r].
        cbn [fst] in *. exists (operation :: ops).
        split; [ cbn [flat_map List.app]; now rewrite Hops | cbn; lia ].
Qed.

(** X17.  Whatever the backend answers, [generateVideo] submits once, first,
    and then only alternates a wait of 5000 ms and a re-query: no re-query
    without the wait before it, no other delay, and at most one re-query
    more than there are answers. *)
Theorem generateVideo_effects (API_KEY : string)
    (generateVideos : VideoPayload -> Errors.RawError + Operation)
    (answers : list (Errors.RawError + Operation))
    (prompt : string) (config : Types.GenerationConfig)
    (attachment : option Types.Attachment) :
  let effects :=
    fst (generateVideo API_KEY generateVideos answers prompt config attachment) in
  exists operations,
    effects = GenerateVideos (videoPayload prompt config attachment)
              :: flat_map (fun o => [Wait 5000; GetVideosOperation o]) operations /\
    requeries effects = operations /\
    waits effects = repeat 5000%Z (List.length operations) /\
    (List.length operations <= S (List.length answers))%nat.
Proof.
  cbv zeta. unfold generateVideo.
  destruct (generateVideos (videoPayload prompt config attachment))
    as [error|operation].
  - exists []. cbn. repeat split. lia.
  - destruct (pollLoop_shape answers operation) as (ops & Hops & Hlen).
    destruct (pollLoop operation answers) as [effects r]. cbn [fst] in *.
    exists ops. subst effects. repeat split.
    + change (requeries (?e :: ?l)) with (requeries l). apply requeries_polls.
    + change (waits (?e :: ?l)) with (waits l). apply waits_polls.
    + exact Hlen.
Qed.

Lemma pollLoop_broken (pendings : list Operation) :
  forall (operation : Operation) (error : Errors.RawError)
         (rest : list (Errors.RawError + Operation)),
    pending operation -> Forall pending pendings ->
    pollLoop operation (map inr pendings ++ inl error :: rest)
    = (flat_map (fun o => [Wait 5000; GetVideosOperation o]) (operation :: pendings),
       Broken error).
Proof.
  induction pendings as [|p pendings IH]; intros operation error rest Hop Hall.
  - cbn [map List.app pollLoop flat_map]. now rewrite Hop.
  - inversion Hall as [|? ? Hp Hall']; subst.
    cbn [map List.app pollLoop]. rewrite Hop.
    now rewrite (IH p error rest Hp Hall').
Qed.

Lemma pollLoop_waiting (pendings : list Operation) :
  forall operation : Operation,
    pending operation -> Forall pending pendings ->
    pollLoop operation (map inr pendings)
    = (flat_map (fun o => [Wait 5000; GetVideosOperation o]) (operation :: pendings),
       Waiting).
Proof.
  induction pendings as [|p pendings IH]; intros operation Hop Hall.
  - cbn [map pollLoop flat_map]. now rewrite Hop.
  - inversion Hall as [|? ? Hp Hall']; subst.
    cbn [map pollLoop]. rewrite Hop. now rewrite (IH p Hp Hall').
Qed.

(** X18.  A rejected submission is thrown, normalized, without any wait or
    re-query; a re-query that is rejected after K answers "not done" ends the
    polling there: K+1 re-queries were made, the normalized error is thrown,
    and the answers after it are never asked for. *)
Theorem generateVideo_failures (API_KEY : string)
    (generateVideos : VideoPayload -> Errors.RawError + Operation)
    (prompt : string) (config : Types.GenerationConfig)
    (attachment : option Types.Attachment) :
  (forall answers error,
     generateVideos (videoPayload prompt config attachment) = inl error ->
     generateVideo API_KEY generateVideos answers prompt config attachment
     = ([GenerateVideos (videoPayload prompt config attachment)],
        Some (Errors.Thrown (Errors.mapError error)))) /\
  (forall initial pendings error rest,
     generateVideos (videoPayload prompt config attachment) = inr initial ->
     pending initial -> Forall pending pendings ->
     generateVideo API_KEY generateVideos (map inr pendings ++ inl error :: rest)
       prompt config attachment
     = (GenerateVideos (videoPayload prompt config attachment)
        :: flat_map (fun o => [Wait 5000; GetVideosOperation o]) (initial :: pendings),
        Some (Errors.Thrown (Errors.mapError error)))).
Proof.
  split.
  - intros answers error H. unfold generateVideo. now rewrite H.
  - intros initial pendings error rest H Hinit Hpend. unfold generateVideo.
    now rewrite H, (@pollLoop_broken pendings initial error rest Hinit Hpend).
Qed.

(** The quota runs out at the second re-query. *)
Lemma generateVideo_failures_witness :
  snd (generateVideo "k3y"
         (fun _ => inr {| done := None; response := None |})
         [inr {| done := Some false; response := None |};
          inl {| Errors.message := Some "RESOURCE_EXHAUSTED" |};
          inr {| done := Some true; response := None |}]
         "a red cube"
         {| Types.aspectRatio := None; Types.imageSize := None;
            Types.resolution := None |} None)
  = Some (Errors.Thrown (Errors.Error "Rate limit exceeded. Try again later.")).
Proof.
  pose proof (proj2 (@generateVideo_failures "k3y"
                    (fun _ => inr {| done := None; response := None |})
                    "a red cube"
                    {| Types.aspectRatio := None; Types.imageSize := None;
                       Types.resolution := None |} None)
             {| done := None; response := None |}
             [ {| done := Some false; response := None |} ]
             {| Errors.message := Some "RESOURCE_EXHAUSTED" |}
             [inr {| done := Some true; response := None |}]
             eq_refl eq_refl ltac:(repeat constructor)) as H.
  cbn [map List.app] in H. rewrite H. reflexivity.
Defined.

(** X19.  There is no limit to the polling: as long as every answer is "not
    done" and none is a failure, the promise is still pending after all of
    them, a further re-query having been issued after a further wait. *)
Theorem generateVideo_unbounded (API_KEY : string)
    (generateVideos : VideoPayload -> Errors.RawError + Operation)
    (prompt : string) (config : Types.GenerationConfig)
    (attachment : option Types.Attachment)
    (initial : Operation) (pendings : list Operation) :
  generateVideos (videoPayload prompt config attachment) = inr initial ->
  pending initial -> Forall pending pendings ->
  let result :=
    generateVideo API_KEY generateVideos (map inr pendings) prompt config attachment in
  snd result = None /\
  requeries (fst result) = initial :: pendings.
Proof.
  intros H Hinit Hpend result. subst result. unfold generateVideo.
  rewrite H, (@pollLoop_waiting pendings initial Hinit Hpend).
  cbn [fst snd]. split; [ reflexivity | ].
  change (requeries (?e :: ?l)) with (requeries l). apply requeries_polls.
Qed.

(** Three answers, none done. *)
Lemma generateVideo_unbounded_witness :
  let running := {| done := Some false; response := None |} in
  let result :=
    generateVideo "k3y" (fun _ => inr running) [inr running; inr running; inr running]
      "a red cube"
      {| Types.aspectRatio := None; Types.imageSize := None;
         Types.resolution := None |} None in
  snd result = None /\ List.length (requeries (fst result)) = 4%nat.
Proof.
  cbv zeta.
  destruct (@generateVideo_unbounded "k3y"
              (fun _ => inr {| done := Some false; response := None |})
              "a red cube"
              {| Types.aspectRatio := None; Types.imageSize := None;
                 Types.resolution := None |} None
              {| done := Some false; response := None |}
              [ {| done := Some false; response := None |};
                {| done := Some false; response := None |};
                {| done := Some false; response := None |} ]
              eq_refl eq_refl ltac:(repeat constructor)) as [Hpending Hre].
  split; [ exact Hpending | ].
  cbv zeta in Hre. cbn [map] in Hre. now rewrite Hre.
Defined.

End VideoTraces.

(** ** Capture, and capture played back *)

Section CaptureProperties.
Import Buffer.
Local Open Scope Z_scope.

Lemma toInt16_range (z : Z) : -32768 <= toInt16 z <= 32767.
Proof.
  unfold toInt16. pose proof (Z.mod_pos_bound (z + 32768) 65536). lia.
Qed.

Lemma elements16_le_bytes (v : Z) (rest : list Z) :
  -32768 <= v <= 32767 ->
  elements16 (le_bytes 2 v ++ rest) = v :: elements16 rest.
Proof.
  intros Hv. cbn [le_bytes List.app elements16]. f_equal.
  rewrite <- (Z.rem_mul_r v 256 256) by lia. change (256 * 256) with 65536.
  unfold signed16. destruct (Z.le_gt_cases 0 v) as [Hpos|Hneg].
  - rewrite Z.mod_small by lia.
    destruct (v <? 32768) eqn:E; [ reflexivity | apply Z.ltb_ge in E; lia ].
  - assert (Hm : v mod 65536 = v + 65536).
    { symmetry. apply (Z.mod_unique v 65536 (-1)); lia. }
    rewrite Hm.
    destruct (v + 65536 <? 32768) eqn:E; [ apply Z.ltb_lt in E; lia | lia ].
Qed.

Lemma elements16_int16Bytes (values : list Z) :
  Forall (fun v => -32768 <= v <= 32767) values ->
  elements16 (Capture.int16Bytes values) = values.
Proof.
  intros H. induction H as [|v l Hv _ IH]; [ reflexivity | ].
  unfold Capture.int16Bytes in *. cbn [flat_map].
  now rewrite (elements16_le_bytes _ Hv), IH.
Qed.

Lemma pcm16_range (inputData : list Q) :
  Forall (fun v => -32768 <= v <= 32767) (Pcm.pcm16 inputData).
Proof.
  unfold Pcm.pcm16. apply Forall_forall. intros v Hv.
  apply in_map_iff in Hv. destruct Hv as (x & <- & _). apply toInt16_range.
Qed.

Lemma int16Bytes_length (values : list Z) :
  List.length (Capture.int16Bytes values) = (2 * List.length values)%nat.
Proof.
  unfold Capture.int16Bytes. induction values as [|v l IH]; [ reflexivity | ].
  cbn [flat_map]. rewrite length_app, IH. cbn. lia.
Qed.

Lemma int16Bytes_range (values : list Z) :
  Forall (fun b => 0 <= b < 256) (Capture.int16Bytes values).
Proof.
  unfold Capture.int16Bytes. induction values as [|v l IH]; [ constructor | ].
  cbn [flat_map]. apply Forall_app. split; [ apply le_bytes_range | exact IH ].
Qed.

(** X20.  A captured block of [n] samples, of any values, is sent as [2n]
    bytes, each in [0, 255]; every stored sample is a 16-bit signed integer,
    and reading those bytes back as an Int16Array (as the playback side does)
    gives the stored samples again. *)
Theorem capture_bytes_round_trip (inputData : list Q) :
  let pcm16 := Pcm.pcm16 inputData in
  let bytes := Capture.int16Bytes pcm16 in
  List.length bytes = (2 * List.length inputData)%nat /\
  Forall (fun b => 0 <= b < 256) bytes /\
  Forall (fun v => -32768 <= v <= 32767) pcm16 /\
  elements16 bytes = pcm16.
Proof.
  cbv zeta. repeat split.
  - rewrite int16Bytes_length. unfold Pcm.pcm16. now rewrite length_map.
  - apply int16Bytes_range.
  - apply pcm16_range.
  - apply elements16_int16Bytes, pcm16_range.
Qed.

Lemma bytes_of_binaryString (bytes : list Z) :
  Forall (fun b => 0 <= b < 256) bytes ->
  bytes_of_binary_string (Capture.binaryString bytes) = bytes.
Proof.
  intros H. unfold bytes_of_binary_string, Capture.binaryString, Js.chars.
  rewrite list_ascii_of_string_of_list_ascii, map_map.
  induction H as [|b l Hb _ IH]; [ reflexivity | ].
  cbn [map]. rewrite IH. f_equal.
  unfold Js.charCodeAt. rewrite N_ascii_embedding.
  - rewrite Z2N.id by lia. apply Z.mod_small. exact Hb.
  - change 256%N with (Z.to_N 256). apply Z2N.inj_lt; lia.
Qed.

End CaptureProperties.

Section LoopbackProperties.
Import Live.
Variable Time : Type.
Variable lt : Time -> Time -> bool.
Variable add : Time -> Time -> Time.
Variable duration : nat -> Time.
Variable atob : string -> option string.
Variable btoa : string -> string.

Local Notation "'stepOf'" := (step lt add duration atob).
Local Notation "'play'" := (playAudio lt add duration atob).

(** X21.  A captured block that comes back as an inbound message, on a
    platform whose [atob] undoes its [btoa] on that block, is scheduled as one
    buffer with as many frames as samples were captured, each sample being
    the captured one after the Int16 round trip; it starts at the later of the
    cursor and the clock. *)
Theorem capture_played_back (client : LiveClient Time) (inputData : list Q)
    (currentTime : Time) :
  outputContext client = true ->
  inputData <> [] ->
  atob (btoa (Capture.binaryString (Capture.int16Bytes (Pcm.pcm16 inputData))))
  = Some (Capture.binaryString (Capture.int16Bytes (Pcm.pcm16 inputData))) ->
  exists client',
    play client (Capture.data (Capture.onaudioprocess btoa inputData)) currentTime
    = inr (Some (client',
                 {| when := later lt (nextStartTime client) currentTime;
                    samples := map Pcm.roundTrip inputData |})) /\
    nextStartTime client'
    = add (later lt (nextStartTime client) currentTime)
        (duration (List.length inputData)).
Proof.
  intros Hctx Hne Hloop.
  unfold playAudio, Capture.onaudioprocess. cbn [Capture.data].
  rewrite Hctx, Hloop. cbn [negb].
  rewrite (bytes_of_binaryString (int16Bytes_range _)).
  unfold Buffer.newInt16Array.
  assert (Hlen : List.length (Capture.int16Bytes (Pcm.pcm16 inputData))
                 = (2 * List.length inputData)%nat).
  { rewrite int16Bytes_length. unfold Pcm.pcm16. now rewrite length_map. }
  assert (Heven : Nat.even (List.length (Capture.int16Bytes (Pcm.pcm16 inputData)))
                  = true).
  { rewrite Hlen. apply Nat.even_spec. now exists (List.length inputData). }
  rewrite Heven. unfold Buffer.length16. cbn [Buffer.view_buffer].
  rewrite Hlen.
  assert (Hhalf : Nat.div2 (2 * List.length inputData) = List.length inputData)
    by apply Nat.div2_double.
  rewrite Hhalf.
  destruct (List.length inputData =? 0)%nat eqn:E.
  - apply Nat.eqb_eq in E. destruct inputData; [ congruence | discriminate E ].
  - cbv zeta. eexists. split.
    + unfold Pcm.channelData. cbn [Buffer.view_buffer].
      rewrite (elements16_int16Bytes (pcm16_range inputData)).
      unfold Pcm.pcm16. rewrite map_map. reflexivity.
    + reflexivity.
Qed.

Lemma playAudio_unplayable (client : LiveClient Time) (base64 : string)
    (currentTime : Time) :
  ~ Playback.playable atob (outputContext client) (Some base64) ->
  Js.truthy base64 = true ->
  forall client' source,
    play client base64 currentTime <> inr (Some (client', source)).
Proof.
  intros Hnot Ht client' source H. apply Hnot. unfold playAudio in H.
  destruct (outputContext client) eqn:Hctx; cbn [negb] in H; [ | discriminate H ].
  destruct (atob base64) as [decoded|] eqn:Hdec; [ | discriminate H ].
  unfold Buffer.newInt16Array in H.
  rewrite bytes_of_binary_string_length in H.
  destruct (Nat.even (String.length decoded)) eqn:Heven; [ | discriminate H ].
  unfold Buffer.length16 in H. cbn [Buffer.view_buffer] in H.
  rewrite bytes_of_binary_string_length in H.
  destruct (Nat.div2 (String.length decoded) =? 0)%nat eqn:Hz; [ discriminate H | ].
  split; [ reflexivity | ].
  exists base64, decoded. repeat split; try assumption.
  - now apply truthy_nonempty.
  - intros Hzero. rewrite Hzero in Hz. discriminate Hz.
Qed.

(** X22.  An inbound message starts a buffer exactly when it is playable
    (output context present, non-empty payload that decodes to a positive
    even number of bytes); the buffer then has half as many frames as there
    are bytes.  Any other message, whether empty, undecodable or of odd
    length, leaves the client and its cursor untouched and has no effect. *)
Theorem inbound_message_played (client : LiveClient Time)
    (audioData : option string) (currentTime : Time) :
  (Playback.playable atob (outputContext client) audioData ->
   exists client' source decoded,
     stepOf client (OnMessage audioData currentTime) = (client', [Start source]) /\
     option_map atob audioData = Some (Some decoded) /\
     frames source = Nat.div2 (String.length decoded)) /\
  (~ Playback.playable atob (outputContext client) audioData ->
   stepOf client (OnMessage audioData currentTime) = (client, [])).
Proof.
  split.
  - intros (Hctx & base64 & decoded & -> & Hne & Hdec & Heven & Hpos).
    cbn [step option_map].
    assert (Ht : Js.truthy base64 = true) by now apply truthy_nonempty.
    rewrite Ht. unfold playAudio. rewrite Hctx, Hdec. cbn [negb].
    unfold Buffer.newInt16Array. rewrite bytes_of_binary_string_length, Heven.
    unfold Buffer.length16. cbn [Buffer.view_buffer].
    rewrite bytes_of_binary_string_length.
    destruct (Nat.div2 (String.length decoded) =? 0)%nat eqn:Hz.
    + apply Nat.eqb_eq in Hz. exfalso.
      destruct (String.length decoded) as [|[|n]]; try congruence; discriminate.
    + cbv zeta. do 3 eexists. split; [ reflexivity | split; [ reflexivity | ] ].
      unfold frames, Pcm.channelData. cbn [samples Buffer.view_buffer].
      rewrite length_map, elements16_length.
      now rewrite bytes_of_binary_string_length.
  - intros Hnot. cbn [step].
    destruct audioData as [base64|]; [ | reflexivity ].
    destruct (Js.truthy base64) eqn:Ht; [ | reflexivity ].
    destruct (play client base64 currentTime) as [e|[[client' source]|]] eqn:E;
      try reflexivity.
    exfalso. exact (@playAudio_unplayable client base64 currentTime Hnot Ht client' source E).
Qed.

Lemma run_flags (events : list (Event Time)) :
  forall client : LiveClient Time,
    (session client = true -> session (fst (run lt add duration atob client events)) = true) /\
    (inputContext client = true ->
     inputContext (fst (run lt add duration atob client events)) = true) /\
    (outputContext client = true ->
     outputContext (fst (run lt add duration atob client events)) = true) /\
    (inputSource client = true ->
     inputSource (fst (run lt add duration atob client events)) = true) /\
    (processor client = true ->
     processor (fst (run lt add duration atob client events)) = true).
Proof.
  induction events as [|event events IH]; intros client.
  - cbn. tauto.
  - rewrite run_cons. cbn [fst].
    specialize (IH (fst (stepOf client event))).
    assert (Hstep :
      (session client = true -> session (fst (stepOf client event)) = true) /\
      (inputContext client = true -> inputContext (fst (stepOf client event)) = true) /\
      (outputContext client = true -> outputContext (fst (stepOf client event)) = true) /\
      (inputSource client = true -> inputSource (fst (stepOf client event)) = true) /\
      (processor client = true -> processor (fst (stepOf client event)) = true)).
    { destruct event as [ | | | | |audioData currentTime| | | ];
        cbn [step fst session inputContext outputContext inputSource processor];
        try tauto.
      - destruct (inputContext client); cbn; intuition congruence.
      - destruct audioData as [base64|]; [ | cbn; intuition congruence ].
        destruct (Js.truthy base64); [ | cbn; intuition congruence ].
        unfold playAudio.
        destruct (negb (outputContext client)); [ cbn; intuition congruence | ].
        destruct (atob base64); [ | cbn; intuition congruence ].
        destruct (Buffer.newInt16Array _); [ cbn; intuition congruence | ].
        destruct (Buffer.length16 _ =? 0)%nat; cbn; intuition congruence. }
    tauto.
Qed.

(** X23.  No event ever clears a reference the client holds: a session, a
    context, a source or a processor that is set stays set through any
    further events, an explicit disconnect included, which changes nothing in
    the client; so a playable message that arrives after a disconnect is
    still scheduled. *)
Theorem references_never_cleared (client : LiveClient Time)
    (events : list (Event Time)) :
  ((session client = true ->
    session (fst (run lt add duration atob client events)) = true) /\
   (inputContext client = true ->
    inputContext (fst (run lt add duration atob client events)) = true) /\
   (outputContext client = true ->
    outputContext (fst (run lt add duration atob client events)) = true) /\
   (inputSource client = true ->
    inputSource (fst (run lt add duration atob client events)) = true) /\
   (processor client = true ->
    processor (fst (run lt add duration atob client events)) = true)) /\
  fst (stepOf client (Disconnect Time)) = client /\
  (forall audioData currentTime,
     Playback.playable atob (outputContext client) audioData ->
     exists source,
       started (snd (run lt add duration atob client
                       [Disconnect Time; OnMessage audioData currentTime]))
       = [source]).
Proof.
  split; [ apply run_flags | split; [ reflexivity | ] ].
  intros audioData currentTime (Hctx & base64 & decoded & -> & Hne & Hdec & Heven & Hpos).
  rewrite run_cons. cbn [step fst snd].
  rewrite started_app.
  assert (Hnone : started
                    (optionally (session client) (SessionClose Time)
                     ++ optionally (inputSource client) (InputSourceDisconnect Time)
                     ++ optionally (processor client) (ProcessorDisconnect Time)
                     ++ optionally (inputContext client) (InputContextClose Time)
                     ++ optionally (outputContext client) (OutputContextClose Time)
                     ++ [StatusChange Time disconnected]) = []).
  { destruct (session client), (inputSource client), (processor client),
      (inputContext client), (outputContext client); reflexivity. }
  rewrite Hnone. cbn [List.app run step].
  assert (Ht : Js.truthy base64 = true) by now apply truthy_nonempty.
  rewrite Ht. unfold playAudio. rewrite Hctx, Hdec. cbn [negb].
  unfold Buffer.newInt16Array. rewrite bytes_of_binary_string_length, Heven.
  unfold Buffer.length16. cbn [Buffer.view_buffer].
  rewrite bytes_of_binary_string_length.
  destruct (Nat.div2 (String.length decoded) =? 0)%nat eqn:Hz.
  - apply Nat.eqb_eq in Hz. exfalso.
    destruct (String.length decoded) as [|[|n]]; try congruence; discriminate.
  - cbv zeta. eexists. reflexivity.
Qed.

End LoopbackProperties.

(** Half scale and full negative scale, captured and played back at clock
    time 1 on the rational clock, with the reference codec. *)
Lemma capture_played_back_witness :
  let client :=
    {| Live.session := true; Live.inputContext := true; Live.outputContext := true;
       Live.inputSource := true; Live.processor := true;
       Live.nextStartTime := 0%Q |} in
  exists client',
    Live.playAudio Live.Qlt_bool Qplus Live.Qduration Base64.atob client
      (Capture.data (Capture.onaudioprocess Base64Encode.btoa [1 # 2; - (1)]%Q)) 1%Q
    = inr (Some (client',
                 {| Live.when := Live.later Live.Qlt_bool 0%Q 1%Q;
                    Live.samples := map Pcm.roundTrip [1 # 2; - (1)]%Q |})) /\
    Live.nextStartTime client'
    = (Live.later Live.Qlt_bool 0%Q 1%Q + Live.Qduration 2)%Q.
Proof.
  cbv zeta.
  apply (@capture_played_back Q Live.Qlt_bool Qplus Live.Qduration Base64.atob
           Base64Encode.btoa
           {| Live.session := true; Live.inputContext := true;
              Live.outputContext := true; Live.inputSource := true;
              Live.processor := true; Live.nextStartTime := 0%Q |}
           [1 # 2; - (1)]%Q 1%Q).
  - reflexivity.
  - discriminate.
  - vm_compute. reflexivity.
Defined.

Section CursorProperties.
Import Live.
Variable Time : Type.
Variable lt : Time -> Time -> bool.
Variable add : Time -> Time -> Time.
Variable duration : nat -> Time.
Variable atob : string -> option string.

Hypothesis lt_irrefl : forall a, lt a a = false.
Hypothesis lt_asym : forall a b, lt a b = true -> lt b a = false.
Hypothesis notAfter_trans :
  forall a b c, notAfter lt a b -> notAfter lt b c -> notAfter lt a c.
Hypothesis duration_forward : forall a n, notAfter lt a (add a (duration n)).

(** X24.  Over any sequence of events, a disconnect and a new connect
    included, the playback cursor never moves backwards: nothing ever resets
    it, so a client that is connected again keeps the cursor of its previous
    session. *)
Theorem cursor_never_decreases (client : LiveClient Time)
    (events : list (Event Time)) :
  notAfter lt (nextStartTime client)
    (nextStartTime (fst (run lt add duration atob client events))).
Proof.
  revert client. induction events as [|event events IH]; intros client.
  - apply lt_irrefl.
  - rewrite run_cons. cbn [fst].
    apply notAfter_trans
      with (nextStartTime (fst (step lt add duration atob client event))).
    + apply (@step_cursor Time lt add duration atob lt_irrefl lt_asym notAfter_trans
               duration_forward client event).
    + apply IH.
Qed.

End CursorProperties.

(** A buffer is played, the caller disconnects and connects again. *)
Lemma cursor_never_decreases_witness :
  Live.notAfter Live.Qlt_bool 0%Q
    (Live.nextStartTime
       (fst (Live.run Live.Qlt_bool Qplus Live.Qduration Base64.atob
               (Live.newLiveClient 0%Q)
               [Live.ConnectCalled Q; Live.OnMessage (Some "AAABAA=="%string) 5%Q;
                Live.Disconnect Q; Live.ConnectCalled Q]))).
Proof.
  apply (@cursor_never_decreases Q Live.Qlt_bool Qplus Live.Qduration Base64.atob
           Qclock_irrefl Qclock_asym Qclock_trans Qclock_forward
           (Live.newLiveClient 0%Q)).
Defined.

Section LiveIndicator.
Import Live.
Variable Time : Type.
Variable lt : Time -> Time -> bool.
Variable add : Time -> Time -> Time.
Variable duration : nat -> Time.
Variable atob : string -> option string.

Lemma statusChanges_app (a b : list (Effect Time)) :
  App.statusChanges (a ++ b) = App.statusChanges a ++ App.statusChanges b.
Proof. unfold App.statusChanges. apply flat_map_app. Qed.

Lemma onStatus_off (statuses : list Status) :
  fold_left App.onStatus statuses App.indicatorOff = App.indicatorOff.
Proof.
  induction statuses as [|s l IH]; [ reflexivity | ].
  cbn [fold_left]. now destruct s.
Qed.

Lemma step_indicator (client : LiveClient Time) (event : Event Time)
    (ui : App.LiveUi) :
  fold_left App.onStatus
    (App.statusChanges (snd (step lt add duration atob client event))) ui
  = if terminal event then App.indicatorOff else ui.
Proof.
  destruct event as [ | | | | |audioData currentTime| | | ]; try reflexivity.
  - cbn [step]. destruct audioData as [base64|]; [ | reflexivity ].
    destruct (Js.truthy base64); [ | reflexivity ].
    destruct (playAudio lt add duration atob client base64 currentTime)
      as [e|[[client' source]|]]; reflexivity.
  - cbn [step snd terminal].
    destruct (session client), (inputSource client), (processor client),
      (inputContext client), (outputContext client); reflexivity.
Qed.

(** X25.  The application's live indicator, driven by the client's status
    notifications, is switched off by the first terminal event of the
    client's life and is never switched on again by a later notification,
    "connected" included; without a terminal event it is left as it was. *)
Theorem live_indicator (client : LiveClient Time) (events : list (Event Time))
    (ui : App.LiveUi) :
  fold_left App.onStatus
    (App.statusChanges (snd (run lt add duration atob client events))) ui
  = if existsb (@terminal Time) events then App.indicatorOff else ui.
Proof.
  revert client ui. induction events as [|event events IH]; intros client ui.
  - reflexivity.
  - rewrite run_cons. cbn [snd existsb].
    rewrite statusChanges_app, fold_left_app, step_indicator.
    destruct (terminal event); cbn [orb].
    + rewrite IH. now destruct (existsb _ events).
    + apply IH.
Qed.

End LiveIndicator.

(** ** The application's sessions *)

Section SessionStore.
Import Types App.
Local Open Scope string_scope.

Lemma addMessageFrom_ids (clock : nat -> Z) (sessionId : string) (message : Message)
    (prev : list ChatSession) :
  forall tick, map id (addMessageFrom clock tick sessionId message prev) = map id prev.
Proof.
  induction prev as [|s rest IH]; intros tick; [ reflexivity | ].
  cbn [addMessageFrom]. destruct (String.eqb (id s) sessionId);
    cbn [map id]; now rewrite IH.
Qed.

Lemma addMessageFrom_other (clock : nat -> Z) (sessionId other : string)
    (message : Message) (prev : list ChatSession) :
  other <> sessionId ->
  forall tick,
    messagesOf other (addMessageFrom clock tick sessionId message prev)
    = messagesOf other prev.
Proof.
  intros Hne. unfold messagesOf.
  induction prev as [|s rest IH]; intros tick; [ reflexivity | ].
  cbn [addMessageFrom]. destruct (String.eqb (id s) sessionId) eqn:E.
  - apply String.eqb_eq in E. cbn [find id].
    destruct (String.eqb (id s) other) eqn:E'.
    + apply String.eqb_eq in E'. congruence.
    + apply IH.
  - cbn [find]. destruct (String.eqb (id s) other); [ reflexivity | apply IH ].
Qed.

Lemma addMessageFrom_target (clock : nat -> Z) (sessionId : string)
    (message : Message) (prev : list ChatSession) :
  forall tick,
    messagesOf sessionId (addMessageFrom clock tick sessionId message prev)
    = if existsb (fun s => String.eqb (id s) sessionId) prev
      then (messagesOf sessionId prev ++ [message])%list
      else [].
Proof.
  unfold messagesOf.
  induction prev as [|s rest IH]; intros tick; [ reflexivity | ].
  cbn [addMessageFrom existsb]. destruct (String.eqb (id s) sessionId) eqn:E.
  - cbn [find id orb]. now rewrite E.
  - cbn [find orb]. rewrite E. apply IH.
Qed.

(** X26.  Adding a message to a session and reading the session back gives
    its former messages followed by the new one; the messages of every other
    session, and the identifiers and order of the sessions, are unchanged;
    when no session has that identifier the message is not stored
    anywhere. *)
Theorem addMessageToSession_lookup (clock : nat -> Z) (sessionId : string)
    (message : Message) (prev : list ChatSession) :
  map id (addMessageToSession clock sessionId message prev) = map id prev /\
  (forall other, other <> sessionId ->
     messagesOf other (addMessageToSession clock sessionId message prev)
     = messagesOf other prev) /\
  (In sessionId (map id prev) ->
   messagesOf sessionId (addMessageToSession clock sessionId message prev)
   = (messagesOf sessionId prev ++ [message])%list) /\
  (~ In sessionId (map id prev) ->
   addMessageToSession clock sessionId message prev = prev).
Proof.
  unfold addMessageToSession. split; [ apply addMessageFrom_ids | ].
  split; [ intros other Hne; now apply addMessageFrom_other | ].
  split.
  - intros Hin. rewrite addMessageFrom_target.
    assert (E : existsb (fun s => String.eqb (id s) sessionId) prev = true).
    { apply existsb_exists. apply in_map_iff in Hin.
      destruct Hin as (s & Hs & Hin). exists s. split; [ exact Hin | ].
      now apply String.eqb_eq. }
    now rewrite E.
  - intros Hnot. generalize 0%nat.
    induction prev as [|s rest IH]; intros tick; [ reflexivity | ].
    cbn [addMessageFrom]. destruct (String.eqb (id s) sessionId) eqn:E.
    + apply String.eqb_eq in E. exfalso. apply Hnot. left. exact E.
    + f_equal. apply IH. intros Hin. apply Hnot. now right.
Qed.

(** The first message of a chat. *)
Lemma addMessageToSession_lookup_witness :
  let hello :=
    {| Types.id := "m1"; role := user; content := "Hello"; timestamp := 0%Z;
       Types.isStreaming := None; isError := None; attachments := None;
       generatedImage := None; generatedVideo := None; audioData := None |} in
  let sessions :=
    [ {| id := "s1"; title := "New Chat"; messages := []; updatedAt := 0%Z |} ] in
  messagesOf "s1" (addMessageToSession (fun _ => 7%Z) "s1" hello sessions) = [hello].
Proof.
  cbv zeta.
  refine (proj1 (proj2 (proj2 (@addMessageToSession_lookup (fun _ => 7%Z) "s1" _
            [ {| id := "s1"; title := "New Chat"; messages := []; updatedAt := 0%Z |} ])))
            _).
  left. reflexivity.
Defined.

Lemma mapMessage_compose (sessionId messageId : string) (f g : Message -> Message)
    (prev : list ChatSession) :
  (forall m, Types.id (f m) = Types.id m) ->
  mapMessage sessionId messageId g (mapMessage sessionId messageId f prev)
  = mapMessage sessionId messageId (fun m => g (f m)) prev.
Proof.
  intros Hid. unfold mapMessage. rewrite map_map. apply map_ext. intros s.
  destruct (String.eqb (id s) sessionId) eqn:E; cbn [id]; rewrite E; [ | reflexivity ].
  cbn [title messages updatedAt]. f_equal. rewrite map_map. apply map_ext.
  intros m. destruct (String.eqb (Types.id m) messageId) eqn:Em.
  - now rewrite Hid, Em.
  - now rewrite Em.
Qed.

Lemma mapMessage_ext (sessionId messageId : string) (f g : Message -> Message)
    (prev : list ChatSession) :
  (forall m, f m = g m) ->
  mapMessage sessionId messageId f prev = mapMessage sessionId messageId g prev.
Proof.
  intros H. unfold mapMessage. apply map_ext. intros s.
  destruct (String.eqb (id s) sessionId); [ | reflexivity ].
  f_equal. apply map_ext. intros m. now rewrite H.
Qed.

Lemma mapMessage_id (sessionId messageId : string) (f : Message -> Message)
    (prev : list ChatSession) :
  (forall m, f m = m) -> mapMessage sessionId messageId f prev = prev.
Proof.
  intros H. unfold mapMessage. rewrite <- (map_id prev) at 2.
  apply map_ext. intros s.
  destruct (String.eqb (id s) sessionId); [ | reflexivity ].
  destruct s as [i t ms u]. cbn [id title messages updatedAt]. f_equal.
  rewrite <- (map_id ms) at 2. apply map_ext. intros m.
  destruct (String.eqb (Types.id m) messageId); [ apply H | reflexivity ].
Qed.

Lemma withChunk_empty (m : Message) : withChunk "" m = m.
Proof. destruct m. unfold withChunk. cbn. now rewrite append_empty_r. Qed.

Lemma withChunk_append (a b : string) (m : Message) :
  withChunk b (withChunk a m) = withChunk (a ++ b) m.
Proof. unfold withChunk. cbn. now rewrite append_assoc. Qed.

Lemma appendChunks_concat (sessionId messageId : string) (chunks : list string) :
  forall prev,
    appendChunks sessionId messageId chunks prev
    = appendChunk sessionId messageId (concat "" chunks) prev.
Proof.
  unfold appendChunks, appendChunk.
  induction chunks as [|c chunks IH]; intros prev.
  - cbn [fold_left concat]. symmetry. apply mapMessage_id, withChunk_empty.
  - cbn [fold_left]. rewrite IH, concat_cons.
    rewrite mapMessage_compose by reflexivity.
    apply mapMessage_ext. intros m. apply withChunk_append.
Qed.

Lemma messagesOf_mapMessage (sessionId messageId : string) (f : Message -> Message)
    (prev : list ChatSession) :
  messagesOf sessionId (mapMessage sessionId messageId f prev)
  = map (fun m => if String.eqb (Types.id m) messageId then f m else m)
      (messagesOf sessionId prev).
Proof.
  unfold messagesOf, mapMessage.
  induction prev as [|s rest IH]; [ reflexivity | ].
  cbn [map find]. destruct (String.eqb (id s) sessionId) eqn:E.
  - cbn [id]. now rewrite E.
  - rewrite E. apply IH.
Qed.

(** X27.  When the stream does not fail, once [onChunk] has run for every
    chunk delivered the assistant message of the current session holds its
    former content followed by exactly the text that [streamResponse]
    returns; the other messages of the session are untouched. *)
Theorem streamed_content (ai : Genai.ChatRequest -> Chat.StreamCall)
    (history : list Message) (newMessage : string)
    (attachments : list Attachment) (mode : AppMode)
    (signal : option Chat.AbortSignal) (chunks : list Genai.Chunk)
    (currentSessionId assistantMessageId : string) (prev : list ChatSession) :
  ai (Chat.chatRequest history newMessage attachments mode)
  = Chat.Streaming chunks Chat.Exhausted ->
  let result := Chat.streamResponse ai history newMessage attachments mode signal in
  exists fullText,
    snd result = Errors.Returned fullText /\
    messagesOf currentSessionId
      (appendChunks currentSessionId assistantMessageId (fst result) prev)
    = map (fun m => if String.eqb (Types.id m) assistantMessageId
                    then withChunk fullText m else m)
        (messagesOf currentSessionId prev).
Proof.
  intros Hcall result. subst result. unfold Chat.streamResponse. rewrite Hcall.
  destruct (forAwait_calls signal Chat.Exhausted chunks 0 "") as (_ & _ & Hdone).
  pose proof (forAwait_raised signal chunks Chat.Exhausted 0 "") as Hraised.
  destruct (Chat.forAwait signal 0 chunks Chat.Exhausted "") as [calls r].
  cbn [fst snd] in *. destruct r as [t|k e].
  - exists t. cbn [fst snd]. split; [ reflexivity | ].
    rewrite appendChunks_concat. unfold appendChunk.
    rewrite messagesOf_mapMessage. now rewrite (Hdone t eq_refl).
  - destruct (Hraised k e eq_refl) as [Habs _]. discriminate Habs.
Qed.

(** Two chunks into an empty assistant message. *)
Lemma streamed_content_witness :
  let assistant :=
    {| Types.id := "m2"; role := model; content := ""; timestamp := 0%Z;
       Types.isStreaming := Some true; isError := None; attachments := None;
       generatedImage := None; generatedVideo := None; audioData := None |} in
  let sessions :=
    [ {| id := "s1"; title := "New Chat"; messages := [assistant]; updatedAt := 0%Z |} ] in
  let ai := fun _ : Genai.ChatRequest =>
    Chat.Streaming [ {| Genai.text := Some "Hel" |}; {| Genai.text := Some "lo" |} ]
      Chat.Exhausted in
  exists fullText,
    snd (Chat.streamResponse ai [] "Hi" [] chat None) = Errors.Returned fullText /\
    messagesOf "s1"
      (appendChunks "s1" "m2" (fst (Chat.streamResponse ai [] "Hi" [] chat None)) sessions)
    = map (fun m => if String.eqb (Types.id m) "m2" then withChunk fullText m else m)
        (messagesOf "s1" sessions).
Proof.
  cbv zeta.
  apply (@streamed_content _ [] "Hi" [] chat None
           [ {| Genai.text := Some "Hel" |}; {| Genai.text := Some "lo" |} ]
           "s1" "m2").
  reflexivity.
Defined.

(** X28.  Creating a chat and deleting a session never leave the selection
    dangling: if the selection named an existing session (or there was none),
    it still does afterwards.  A deleted session is gone, the others remain
    in their order, and deleting the selected session selects the first one
    that remains, or nothing when none remains; a new chat comes first and is
    selected. *)
Theorem selection_stays_valid (shell : Shell) :
  selectionValid shell ->
  (forall newId now,
     selectionValid (createNewChat newId now shell) /\
     currentSessionId (createNewChat newId now shell)
     = hd_error (map id (sessions (createNewChat newId now shell)))) /\
  (forall sessionId,
     let shell' := deleteSession sessionId shell in
     selectionValid shell' /\
     ~ In sessionId (map id (sessions shell')) /\
     sessions shell'
     = filter (fun s => negb (String.eqb (id s) sessionId)) (sessions shell) /\
     (currentSessionId shell = Some sessionId ->
      currentSessionId shell' = hd_error (map id (sessions shell'))) /\
     (currentSessionId shell <> Some sessionId ->
      currentSessionId shell' = currentSessionId shell)).
Proof.
  intros Hvalid. split.
  - intros newId now. split; [ cbn; now left | reflexivity ].
  - intros sessionId shell'. subst shell'. unfold deleteSession, selectionValid in *.
    cbn [sessions currentSessionId].
    set (filtered := filter (fun s => negb (String.eqb (id s) sessionId))
                       (sessions shell)).
    assert (Hgone : ~ In sessionId (map id filtered)).
    { intros Hin. apply in_map_iff in Hin. destruct Hin as (s & Hs & Hin).
      apply filter_In in Hin. destruct Hin as [_ Hkeep].
      apply negb_true_iff, String.eqb_neq in Hkeep. congruence. }
    split; [ | split; [ exact Hgone | split; [ reflexivity | split ] ] ].
    + destruct (currentSessionId shell) as [current|]; [ | exact I ].
      destruct (String.eqb current sessionId) eqn:E.
      * destruct filtered as [|first rest]; [ exact I | now left ].
      * apply in_map_iff in Hvalid.
        destruct Hvalid as (s & Hs & Hin). apply in_map_iff. exists s.
        split; [ exact Hs | ]. apply filter_In. split; [ exact Hin | ].
        apply negb_true_iff, String.eqb_neq. apply String.eqb_neq in E. congruence.
    + intros ->. rewrite String.eqb_refl. now destruct filtered.
    + intros Hne. destruct (currentSessionId shell) as [current|]; [ | reflexivity ].
      destruct (String.eqb current sessionId) eqn:E; [ | reflexivity ].
      apply String.eqb_eq in E. congruence.
Qed.

(** The selected chat, the second of two, is deleted. *)
Lemma selection_stays_valid_witness :
  let shell :=
    {| sessions :=
         [ {| id := "s1"; title := "A"; messages := []; updatedAt := 0%Z |};
           {| id := "s2"; title := "B"; messages := []; updatedAt := 0%Z |} ];
       currentSessionId := Some "s2";
       isStreaming := false |} in
  selectionValid (deleteSession "s2" shell) /\
  currentSessionId (deleteSession "s2" shell) = Some "s1".
Proof.
  cbv zeta.
  destruct (proj2 (@selection_stays_valid
              {| sessions :=
                   [ {| id := "s1"; title := "A"; messages := []; updatedAt := 0%Z |};
                     {| id := "s2"; title := "B"; messages := []; updatedAt := 0%Z |} ];
                 currentSessionId := Some "s2";
                 isStreaming := false |}
              ltac:(right; left; reflexivity)) "s2")
    as (Hvalid & _ & _ & Hsel & _).
  split; [ exact Hvalid | exact (Hsel eq_refl) ].
Defined.

End SessionStore.

Section MessageUpdatesProperties.
Import Types App.
Local Open Scope string_scope.

Lemma mapMessage_ids (sessionId messageId : string) (f : Message -> Message)
    (prev : list ChatSession) :
  map id (mapMessage sessionId messageId f prev) = map id prev.
Proof.
  unfold mapMessage. rewrite map_map. apply map_ext. intros s.
  now destruct (String.eqb (id s) sessionId).
Qed.

Lemma messagesOf_mapMessage_other (sessionId other messageId : string)
    (f : Message -> Message) (prev : list ChatSession) :
  other <> sessionId ->
  messagesOf other (mapMessage sessionId messageId f prev) = messagesOf other prev.
Proof.
  intros Hne. unfold messagesOf, mapMessage.
  induction prev as [|s rest IH]; [ reflexivity | ].
  cbn [map find]. destruct (String.eqb (id s) sessionId) eqn:E.
  - apply String.eqb_eq in E. cbn [id].
    destruct (String.eqb (id s) other) eqn:E'.
    + apply String.eqb_eq in E'. congruence.
    + apply IH.
  - destruct (String.eqb (id s) other); [ reflexivity | apply IH ].
Qed.

(** X9.  [updateMessageInSession] touches only the messages with the given
    identifier in the sessions with the given identifier: sessions keep their
    identifiers and order, every other session keeps its messages, and in the
    target session the other messages are kept in place.  An update object
    without properties changes nothing, and two successive updates of the
    same message, the first of which does not rename it, amount to applying
    both to it in order (the later one wins where both set a property), as
    the error update followed by the final "not streaming" update does. *)
Theorem updateMessageInSession_scope (sessionId messageId : string)
    (updates : MessageUpdates) (prev : list ChatSession) :
  map id (updateMessageInSession sessionId messageId updates prev) = map id prev /\
  (forall other, other <> sessionId ->
     messagesOf other (updateMessageInSession sessionId messageId updates prev)
     = messagesOf other prev) /\
  messagesOf sessionId (updateMessageInSession sessionId messageId updates prev)
  = map (fun m => if String.eqb (Types.id m) messageId
                  then applyUpdates m updates else m)
      (messagesOf sessionId prev) /\
  updateMessageInSession sessionId messageId noUpdates prev = prev /\
  (forall later,
     newId updates = None ->
     updateMessageInSession sessionId messageId later
       (updateMessageInSession sessionId messageId updates prev)
     = mapMessage sessionId messageId
         (fun m => applyUpdates (applyUpdates m updates) later) prev).
Proof.
  unfold updateMessageInSession.
  split; [ apply mapMessage_ids | ].
  split; [ intros other Hne; now apply messagesOf_mapMessage_other | ].
  split; [ apply messagesOf_mapMessage | ].
  split.
  - apply mapMessage_id. intros m. now destruct m.
  - intros later Hid. apply mapMessage_compose.
    intros m. unfold applyUpdates. cbn [Types.id]. now rewrite Hid.
Qed.

End MessageUpdatesProperties.

(** ** The input area *)

Section InputProperties.
Import Types InputArea.
Local Open Scope string_scope.

Lemma filterIndexFrom_past (index : nat) (prev : list Attachment) :
  forall i, (index < i)%nat -> filterIndexFrom i index prev = prev.
Proof.
  induction prev as [|a rest IH]; intros i Hi; [ reflexivity | ].
  cbn [filterIndexFrom].
  destruct (i =? index)%nat eqn:E; [ apply Nat.eqb_eq in E; lia | ].
  f_equal. apply IH. lia.
Qed.

Lemma filterIndexFrom_split (index : nat) (prev : list Attachment) :
  forall i, (i <= index)%nat ->
    filterIndexFrom i index prev
    = (firstn (index - i) prev ++ skipn (S (index - i)) prev)%list.
Proof.
  induction prev as [|a rest IH]; intros i Hi.
  - cbn [filterIndexFrom]. now rewrite firstn_nil, skipn_nil.
  - cbn [filterIndexFrom]. destruct (i =? index)%nat eqn:E.
    + apply Nat.eqb_eq in E. subst i. rewrite Nat.sub_diag.
      cbn [firstn skipn List.app]. apply filterIndexFrom_past. lia.
    + apply Nat.eqb_neq in E.
      replace (index - i)%nat with (S (index - S i)) by lia.
      cbn [firstn skipn List.app]. f_equal. apply IH. lia.
Qed.

(** X29.  Removing the attachment at an index drops exactly that element and
    keeps the others in order; an index beyond the list removes nothing. *)
Theorem removeAttachment_at (index : nat) (prev : list Attachment) :
  removeAttachment index prev = (firstn index prev ++ skipn (S index) prev)%list /\
  ((index < List.length prev)%nat ->
   S (List.length (removeAttachment index prev)) = List.length prev) /\
  ((List.length prev <= index)%nat -> removeAttachment index prev = prev).
Proof.
  assert (E : removeAttachment index prev
              = (firstn index prev ++ skipn (S index) prev)%list).
  { unfold removeAttachment. rewrite filterIndexFrom_split by lia.
    now rewrite Nat.sub_0_r. }
  split; [ exact E | split ].
  - intros Hlt. rewrite E, length_app, length_firstn, length_skipn. lia.
  - intros Hge. rewrite E, firstn_all2 by exact Hge.
    rewrite skipn_all2 by lia. apply app_nil_r.
Qed.

Variable trim : string -> string.
Hypothesis trim_empty : trim "" = "".

(** X30.  [handleSend] sends nothing, and changes nothing, while a response
    is streaming or when the input trims to nothing and nothing is attached.
    Otherwise it sends the input as typed with the attachments and the mode,
    then clears the input and the attachments and keeps the mode; the chat
    request built from what it sent always has at least one part, and a
    second [handleSend] right after sends nothing. *)
Theorem handleSend_sends (isStreaming : bool) (st : State) :
  (isStreaming = true \/ (trim (input st) = "" /\ attachments st = []) ->
   handleSend trim isStreaming st = (None, st)) /\
  (isStreaming = false -> trim (input st) <> "" \/ attachments st <> [] ->
   exists sent st',
     handleSend trim isStreaming st = (Some sent, st') /\
     sentMessage sent = input st /\
     sentAttachments sent = attachments st /\
     sentMode sent = mode st /\
     input st' = "" /\ attachments st' = [] /\ mode st' = mode st /\
     (forall history,
        Genai.message (Chat.chatRequest history (sentMessage sent)
                         (sentAttachments sent) (sentMode sent)) <> []) /\
     handleSend trim false st' = (None, st')).
Proof.
  split.
  - intros [->|[Ht Ha]]; [ reflexivity | ].
    unfold handleSend. rewrite Ht, Ha. now destruct isStreaming.
  - intros -> Hsome. unfold handleSend.
    assert (Hguard : negb (Js.truthy (trim (input st)))
                     && (List.length (attachments st) =? 0)%nat = false).
    { destruct Hsome as [Ht|Ha].
      - apply truthy_nonempty in Ht. now rewrite Ht.
      - destruct (attachments st); [ congruence | ].
        cbn. apply andb_false_r. }
    rewrite Hguard. do 2 eexists. split; [ reflexivity | ].
    cbn [sentMessage sentAttachments sentMode input attachments mode].
    repeat split.
    + intros history. unfold Chat.chatRequest.
      destruct (Chat.determineModelAndConfig (mode st) (attachments st)) as [m c].
      cbn [Genai.message].
      destruct Hsome as [Ht|Ha].
      * assert (Hin : input st <> "") by (intros E; rewrite E in Ht; now apply Ht).
        apply truthy_nonempty in Hin. rewrite Hin. discriminate.
      * destruct (attachments st) as [|a atts]; [ congruence | ].
        destruct (Js.truthy (input st)); discriminate.
    + now rewrite trim_empty.
Qed.

End InputProperties.

(** A picture alone, no text. *)
Lemma handleSend_sends_witness :
  let picture := {| Types.mimeType := "image/png"%string;
                    Types.data := "iVBORw0KGgo="%string; Types.name := None |} in
  let st := {| InputArea.input := ""%string; InputArea.mode := Types.chat;
               InputArea.attachments := [picture];
               InputArea.aspectRatio := "1:1"%string;
               InputArea.imageSize := "1K"%string;
               InputArea.videoAr := "16:9"%string |} in
  exists sent st',
    InputArea.handleSend TrimReference.trim false st = (Some sent, st') /\
    InputArea.sentAttachments sent = [picture] /\
    InputArea.handleSend TrimReference.trim false st' = (None, st').
Proof.
  cbv zeta.
  destruct (proj2 (@handleSend_sends TrimReference.trim eq_refl false
              {| InputArea.input := ""%string; InputArea.mode := Types.chat;
                 InputArea.attachments :=
                   [ {| Types.mimeType := "image/png"%string;
                        Types.data := "iVBORw0KGgo="%string; Types.name := None |} ];
                 InputArea.aspectRatio := "1:1"%string;
                 InputArea.imageSize := "1K"%string;
                 InputArea.videoAr := "16:9"%string |})
             eq_refl ltac:(right; discriminate))
    as (sent & st' & H & _ & Ha & _ & _ & _ & _ & _ & Hagain).
  exists sent, st'. repeat split; assumption.
Defined.

(** The second of three attachments is removed. *)
Lemma removeAttachment_at_witness :
  let a := {| Types.mimeType := "image/png"%string; Types.data := "AAAA"%string;
              Types.name := None |} in
  let b := {| Types.mimeType := "audio/wav"%string; Types.data := "BBBB"%string;
              Types.name := None |} in
  let c := {| Types.mimeType := "video/mp4"%string; Types.data := "CCCC"%string;
              Types.name := None |} in
  S (List.length (InputArea.removeAttachment 1 [a; b; c])) = 3%nat.
Proof.
  cbv zeta.
  exact (proj1 (proj2 (@removeAttachment_at 1
           [ {| Types.mimeType := "image/png"%string; Types.data := "AAAA"%string;
                Types.name := None |};
             {| Types.mimeType := "audio/wav"%string; Types.data := "BBBB"%string;
                Types.name := None |};
             {| Types.mimeType := "video/mp4"%string; Types.data := "CCCC"%string;
                Types.name := None |} ]))
           ltac:(cbn; lia)).
Defined.
